(** * GraphAura: the client-side graph store, its derived filtered view,
      the page-level loader and the gateway's ingestion step.

    Shallow embedding of
      - [frontend/stores/graphStore.ts]   (the zustand store),
      - [frontend/components/Graph3D.tsx] (the [filteredData] memo),
      - [frontend/app/page.tsx]           (the [loadGraphData] effect),
      - [lib/api.ts]                      ([graphApi.getGraph]),
      - [types/graph.ts]                  (the data model).

    JavaScript strings are modelled by [string], numbers by binary64
    floats, [Set<string>] by [gset string], arrays by [list], and
    [T | null] by [option T]. *)

From Stdlib Require Import String Ascii List Bool Floats.
From stdpp Require Import base strings gmap list.
Import ListNotations.

Local Open Scope string_scope.
Local Open Scope list_scope.

(** ** Data model ([types/graph.ts]) *)

Inductive NodeType := person | event | location.

#[global] Instance NodeType_eq_dec : EqDecision NodeType.
Proof. solve_decision. Defined.

(** The values a [Record<string, any>] holds in this program. *)
Inductive JsValue :=
| JsUndefined
| JsString (s : string)
| JsNumber (x : float).

Record GraphNode := mkNode {
  node_id : string;
  node_name : string;
  node_type : NodeType;
  node_val : float;
  node_color : string;
  node_metadata : option (list (string * JsValue));
  node_x : option float;
  node_y : option float;
  node_z : option float;
  node_fx : option float;
  node_fy : option float;
  node_fz : option float
}.

(** [source: string | GraphNode]: a link endpoint is either the id of a
    node or the node object the renderer resolved it to. *)
Inductive Endpoint :=
| EndId (s : string)
| EndRef (n : GraphNode).

Record GraphLink := mkLink {
  source : Endpoint;
  target : Endpoint;
  relationship : string;
  strength : option float;
  link_color : option string
}.

Record GraphData := mkGraph {
  nodes : list GraphNode;
  links : list GraphLink
}.

(** [Partial<GraphNode>]: every field may be absent. *)
Record PartialGraphNode := mkPartial {
  u_id : option string;
  u_name : option string;
  u_type : option NodeType;
  u_val : option float;
  u_color : option string;
  u_metadata : option (list (string * JsValue));
  u_x : option float;
  u_y : option float;
  u_z : option float;
  u_fx : option float;
  u_fy : option float;
  u_fz : option float
}.

Definition NODE_COLORS (t : NodeType) : string :=
  match t with
  | person => "#3B82F6"
  | event => "#10B981"
  | location => "#EF4444"
  end.

(** [typeof e === 'string' ? e : e.id], the expression every comparison
    site of the store inlines. *)
Definition endpointId (e : Endpoint) : string :=
  match e with
  | EndId s => s
  | EndRef n => node_id n
  end.

(** The template literal [`${sourceId}-${targetId}`]. *)
Definition linkIdOf (sourceId targetId : string) : string :=
  (sourceId ++ "-" ++ targetId)%string.

(** ** The store ([stores/graphStore.ts]) *)

Record GraphState := mkState {
  graphData : GraphData;
  selectedNode : option GraphNode;
  hoveredNode : option GraphNode;
  highlightedNodes : gset string;
  highlightedLinks : gset string;
  filterByType : option NodeType;
  searchQuery : string;
  isLoading : bool;
  error : option string
}.

Definition initialState : GraphState :=
  {| graphData := mkGraph [] [];
     selectedNode := None;
     hoveredNode := None;
     highlightedNodes := ∅;
     highlightedLinks := ∅;
     filterByType := None;
     searchQuery := "";
     isLoading := false;
     error := None |}.

(** zustand's [set] merges the given fields into the state; the setters
    below replace one field and keep the others. *)
Definition withGraphData (g : GraphData) (st : GraphState) : GraphState :=
  {| graphData := g;
     selectedNode := selectedNode st;
     hoveredNode := hoveredNode st;
     highlightedNodes := highlightedNodes st;
     highlightedLinks := highlightedLinks st;
     filterByType := filterByType st;
     searchQuery := searchQuery st;
     isLoading := isLoading st;
     error := error st |}.

Definition setGraphData (data : GraphData) (st : GraphState) : GraphState :=
  withGraphData data st.

Definition addNode (node : GraphNode) (st : GraphState) : GraphState :=
  withGraphData
    {| nodes := nodes (graphData st) ++ [node];
       links := links (graphData st) |} st.

Definition removeNode (nodeId : string) (st : GraphState) : GraphState :=
  withGraphData
    {| nodes :=
         List.filter (fun n => negb (String.eqb (node_id n) nodeId))
                     (nodes (graphData st));
       links :=
         List.filter
           (fun l =>
              negb (String.eqb (endpointId (source l)) nodeId) &&
              negb (String.eqb (endpointId (target l)) nodeId))
           (links (graphData st)) |} st.

(** [{ ...n, ...updates }]: a field of [updates] that is present wins. *)
Definition spreadNode (n : GraphNode) (updates : PartialGraphNode) : GraphNode :=
  {| node_id := default (node_id n) (u_id updates);
     node_name := default (node_name n) (u_name updates);
     node_type := default (node_type n) (u_type updates);
     node_val := default (node_val n) (u_val updates);
     node_color := default (node_color n) (u_color updates);
     node_metadata :=
       match u_metadata updates with
       | Some m => Some m
       | None => node_metadata n
       end;
     node_x := match u_x updates with Some v => Some v | None => node_x n end;
     node_y := match u_y updates with Some v => Some v | None => node_y n end;
     node_z := match u_z updates with Some v => Some v | None => node_z n end;
     node_fx := match u_fx updates with Some v => Some v | None => node_fx n end;
     node_fy := match u_fy updates with Some v => Some v | None => node_fy n end;
     node_fz := match u_fz updates with Some v => Some v | None => node_fz n end |}.

Definition updateNode (nodeId : string) (updates : PartialGraphNode)
    (st : GraphState) : GraphState :=
  withGraphData
    {| nodes :=
         List.map
           (fun n => if String.eqb (node_id n) nodeId
                     then spreadNode n updates else n)
           (nodes (graphData st));
       links := links (graphData st) |} st.

Definition addLink (link : GraphLink) (st : GraphState) : GraphState :=
  withGraphData
    {| nodes := nodes (graphData st);
       links := links (graphData st) ++ [link] |} st.

Definition removeLink (sourceId targetId : string) (st : GraphState) : GraphState :=
  withGraphData
    {| nodes := nodes (graphData st);
       links :=
         List.filter
           (fun l =>
              let source := endpointId (source l) in
              let target := endpointId (target l) in
              negb (String.eqb source sourceId && String.eqb target targetId))
           (links (graphData st)) |} st.

Definition setSelectedNode (node : option GraphNode) (st : GraphState) : GraphState :=
  {| graphData := graphData st;
     selectedNode := node;
     hoveredNode := hoveredNode st;
     highlightedNodes := highlightedNodes st;
     highlightedLinks := highlightedLinks st;
     filterByType := filterByType st;
     searchQuery := searchQuery st;
     isLoading := isLoading st;
     error := error st |}.

Definition setHoveredNode (node : option GraphNode) (st : GraphState) : GraphState :=
  {| graphData := graphData st;
     selectedNode := selectedNode st;
     hoveredNode := node;
     highlightedNodes := highlightedNodes st;
     highlightedLinks := highlightedLinks st;
     filterByType := filterByType st;
     searchQuery := searchQuery st;
     isLoading := isLoading st;
     error := error st |}.

Definition setHighlightedNodes (nodeIds : list string) (st : GraphState) : GraphState :=
  {| graphData := graphData st;
     selectedNode := selectedNode st;
     hoveredNode := hoveredNode st;
     highlightedNodes := list_to_set nodeIds;
     highlightedLinks := highlightedLinks st;
     filterByType := filterByType st;
     searchQuery := searchQuery st;
     isLoading := isLoading st;
     error := error st |}.

Definition setHighlightedLinks (linkIds : list string) (st : GraphState) : GraphState :=
  {| graphData := graphData st;
     selectedNode := selectedNode st;
     hoveredNode := hoveredNode st;
     highlightedNodes := highlightedNodes st;
     highlightedLinks := list_to_set linkIds;
     filterByType := filterByType st;
     searchQuery := searchQuery st;
     isLoading := isLoading st;
     error := error st |}.

Definition setFilterByType (type : option NodeType) (st : GraphState) : GraphState :=
  {| graphData := graphData st;
     selectedNode := selectedNode st;
     hoveredNode := hoveredNode st;
     highlightedNodes := highlightedNodes st;
     highlightedLinks := highlightedLinks st;
     filterByType := type;
     searchQuery := searchQuery st;
     isLoading := isLoading st;
     error := error st |}.

Definition setSearchQuery (query : string) (st : GraphState) : GraphState :=
  {| graphData := graphData st;
     selectedNode := selectedNode st;
     hoveredNode := hoveredNode st;
     highlightedNodes := highlightedNodes st;
     highlightedLinks := highlightedLinks st;
     filterByType := filterByType st;
     searchQuery := query;
     isLoading := isLoading st;
     error := error st |}.

Definition setLoading (loading : bool) (st : GraphState) : GraphState :=
  {| graphData := graphData st;
     selectedNode := selectedNode st;
     hoveredNode := hoveredNode st;
     highlightedNodes := highlightedNodes st;
     highlightedLinks := highlightedLinks st;
     filterByType := filterByType st;
     searchQuery := searchQuery st;
     isLoading := loading;
     error := error st |}.

Definition setError (e : option string) (st : GraphState) : GraphState :=
  {| graphData := graphData st;
     selectedNode := selectedNode st;
     hoveredNode := hoveredNode st;
     highlightedNodes := highlightedNodes st;
     highlightedLinks := highlightedLinks st;
     filterByType := filterByType st;
     searchQuery := searchQuery st;
     isLoading := isLoading st;
     error := e |}.

(** [set({ graphData: { nodes: [], links: [] }, selectedNode: null })] *)
Definition clearGraph (st : GraphState) : GraphState :=
  {| graphData := mkGraph [] [];
     selectedNode := None;
     hoveredNode := hoveredNode st;
     highlightedNodes := highlightedNodes st;
     highlightedLinks := highlightedLinks st;
     filterByType := filterByType st;
     searchQuery := searchQuery st;
     isLoading := isLoading st;
     error := error st |}.

(** The result object [{ nodes: neighborNodes, links: neighborLinks }]. *)
Record Neighbors := mkNeighbors {
  nbr_nodes : gset string;
  nbr_links : gset string
}.

(** The body of the [forEach] callback of [getNeighbors], acting on the
    two sets it closes over. *)
Definition visitLink (nodeId : string) (acc : Neighbors) (link : GraphLink) : Neighbors :=
  let sourceId := endpointId (source link) in
  let targetId := endpointId (target link) in
  if String.eqb sourceId nodeId then
    {| nbr_nodes := nbr_nodes acc ∪ {[ targetId ]};
       nbr_links := nbr_links acc ∪ {[ linkIdOf sourceId targetId ]} |}
  else if String.eqb targetId nodeId then
    {| nbr_nodes := nbr_nodes acc ∪ {[ sourceId ]};
       nbr_links := nbr_links acc ∪ {[ linkIdOf sourceId targetId ]} |}
  else acc.

Definition getNeighbors (nodeId : string) (st : GraphState) : Neighbors :=
  fold_left (visitLink nodeId) (links (graphData st)) (mkNeighbors ∅ ∅).

(** ** The derived filtered view ([components/Graph3D.tsx]) *)

(** [String.prototype.toLowerCase] on the ASCII range: [A]..[Z] map to
    [a]..[z] and every other code unit is kept. *)
Definition lowerAscii (c : ascii) : ascii :=
  let n := nat_of_ascii c in
  if Nat.leb 65 n && Nat.leb n 90 then ascii_of_nat (n + 32) else c.

Fixpoint toLowerCase (s : string) : string :=
  match s with
  | EmptyString => EmptyString
  | String c s' => String (lowerAscii c) (toLowerCase s')
  end.

(** [s.includes(sub)]: [sub] occurs in [s] at some position. *)
Fixpoint includes (s sub : string) : bool :=
  String.prefix sub s ||
  match s with
  | EmptyString => false
  | String _ s' => includes s' sub
  end.

(** A string is truthy when it is not empty. *)
Definition truthy (s : string) : bool := negb (String.eqb s "").

(** [new Set(nodes.map((n) => n.id))] *)
Definition nodeIdSet (ns : list GraphNode) : gset string :=
  list_to_set (List.map node_id ns).

(** The callback both link filters of [filteredData] use:
    [nodeIds.has(sourceId) && nodeIds.has(targetId)]. *)
Definition bothEndpointsIn (nodeIds : gset string) (link : GraphLink) : bool :=
  let sourceId := endpointId (source link) in
  let targetId := endpointId (target link) in
  bool_decide (sourceId ∈ nodeIds) && bool_decide (targetId ∈ nodeIds).

Definition nameMatches (query : string) (node : GraphNode) : bool :=
  includes (toLowerCase (node_name node)) (toLowerCase query).

Definition filteredData (st : GraphState) : GraphData :=
  let nodes0 := nodes (graphData st) in
  let links0 := links (graphData st) in
  let '(nodes1, links1) :=
    match filterByType st with
    | Some ty =>
        let ns := List.filter (fun node => bool_decide (node_type node = ty)) nodes0 in
        let nodeIds := nodeIdSet ns in
        (ns, List.filter (bothEndpointsIn nodeIds) links0)
    | None => (nodes0, links0)
    end in
  let '(nodes2, links2) :=
    if truthy (searchQuery st) then
      let ns := List.filter (nameMatches (searchQuery st)) nodes1 in
      let nodeIds := nodeIdSet ns in
      (ns, List.filter (bothEndpointsIn nodeIds) links1)
    else (nodes1, links1) in
  {| nodes := nodes2; links := links2 |}.

(** ** The gateway ([lib/api.ts]) *)

(** How an awaited promise settles. *)
Inductive Settled (A : Type) :=
| Resolved (a : A)
| Rejected (reason : string).
Arguments Resolved {A} a.
Arguments Rejected {A} reason.

(** A node and a relationship as the graph database returns them. *)
Record DbNode := mkDbNode {
  db_name : string;
  db_description : JsValue;
  db_category : JsValue
}.

Record DbRel := mkDbRel {
  db_type : option string
}.

(** One row of [response.data.results]; [n], [r] and [m] may be null. *)
Record DbRecord := mkDbRecord {
  rec_n : option DbNode;
  rec_r : option DbRel;
  rec_m : option DbNode
}.

(** The chain of conditionals on [category]. *)
Definition nodeTypeOf (category : JsValue) : NodeType :=
  match category with
  | JsString c =>
      if String.eqb c "Event" then event
      else if String.eqb c "Date" then event
      else if String.eqb c "Location" then location
      else if String.eqb c "Person" then person
      else event
  | _ => event
  end.

(** [Map<string, GraphNode>] in insertion order. *)
Definition NodeMap := list (string * GraphNode).

Definition map_has (k : string) (m : NodeMap) : bool :=
  existsb (fun kv => String.eqb (fst kv) k) m.

Definition map_set (k : string) (v : GraphNode) (m : NodeMap) : NodeMap :=
  if map_has k m
  then List.map (fun kv => if String.eqb (fst kv) k then (k, v) else kv) m
  else m ++ [(k, v)].

Definition map_values (m : NodeMap) : list GraphNode := List.map snd m.

Definition nodeOfDb (d : DbNode) : GraphNode :=
  let nodeType := nodeTypeOf (db_category d) in
  {| node_id := db_name d;
     node_name := db_name d;
     node_type := nodeType;
     node_val := 1%float;
     node_color := NODE_COLORS nodeType;
     node_metadata :=
       Some [("description", db_description d); ("category", db_category d)];
     node_x := None; node_y := None; node_z := None;
     node_fx := None; node_fy := None; node_fz := None |}.

(** [if (record.x && !nodes.has(record.x.name)) nodes.set(...)] *)
Definition ingestNode (x : option DbNode) (m : NodeMap) : NodeMap :=
  match x with
  | Some d =>
      if negb (map_has (db_name d) m)
      then map_set (db_name d) (nodeOfDb d) m
      else m
  | None => m
  end.

(** The three locals the [forEach] of [getGraph] updates. *)
Record Ingest := mkIngest {
  in_nodes : NodeMap;
  in_links : list GraphLink;
  in_linkSet : gset string
}.

(** [record.r.type || 'RELATED_TO'] *)
Definition relationshipOf (r : DbRel) : string :=
  match db_type r with
  | Some t => if truthy t then t else "RELATED_TO"
  | None => "RELATED_TO"
  end.

Definition ingestLink (record : DbRecord) (s : Ingest) : Ingest :=
  match rec_r record, rec_n record, rec_m record with
  | Some r, Some n, Some m =>
      let linkId := linkIdOf (db_name n) (db_name m) in
      let reverseLinkId := linkIdOf (db_name m) (db_name n) in
      if negb (bool_decide (linkId ∈ in_linkSet s)) &&
         negb (bool_decide (reverseLinkId ∈ in_linkSet s))
      then
        {| in_nodes := in_nodes s;
           in_links :=
             in_links s ++
             [ {| source := EndId (db_name n);
                  target := EndId (db_name m);
                  relationship := relationshipOf r;
                  strength := Some 1%float;
                  link_color := None |} ];
           in_linkSet := in_linkSet s ∪ {[ linkId ]} |}
      else s
  | _, _, _ => s
  end.

(** The body of the [forEach] callback of [getGraph]. *)
Definition ingestRecord (s : Ingest) (record : DbRecord) : Ingest :=
  let s1 :=
    {| in_nodes := ingestNode (rec_n record) (in_nodes s);
       in_links := in_links s;
       in_linkSet := in_linkSet s |} in
  let s2 :=
    {| in_nodes := ingestNode (rec_m record) (in_nodes s1);
       in_links := in_links s1;
       in_linkSet := in_linkSet s1 |} in
  ingestLink record s2.

Definition ingestAll (results : list DbRecord) : Ingest :=
  fold_left ingestRecord results (mkIngest [] [] ∅).

(** [graphApi.getGraph]: the argument is how the Cypher request settled,
    with [response.data.results] when it resolved ([None] when the field is
    missing). Everything runs inside one [try]; the [catch] logs and
    returns the empty graph, so the promise always resolves. *)
Definition getGraph (response : Settled (option (list DbRecord))) : Settled GraphData :=
  match response with
  | Resolved results =>
      let s :=
        match results with
        | Some rs => ingestAll rs
        | None => mkIngest [] [] ∅
        end in
      Resolved {| nodes := map_values (in_nodes s); links := in_links s |}
  | Rejected _ => Resolved {| nodes := []; links := [] |}
  end.

(** The first variant of [graphApi.getGraph] in [lib/api.ts]:
    [GET /graph] followed by [GraphDataSchema.parse], with no [try]; a
    failed request or a failed parse ([None]) rejects. *)
Definition getGraph_plain (response : Settled (option GraphData)) : Settled GraphData :=
  match response with
  | Resolved (Some data) => Resolved data
  | Resolved None => Rejected "ZodError"
  | Rejected reason => Rejected reason
  end.

(** ** The loader ([app/page.tsx]) *)

(** [loadGraphData] up to its [await]. *)
Definition loadGraphData_begin (st : GraphState) : GraphState :=
  setLoading true st.

(** [loadGraphData] from the point where [await graphApi.getGraph()]
    settles: the [try] body, the [catch] and the [finally]. *)
Definition loadGraphData_settle (awaited : Settled GraphData) (st : GraphState) : GraphState :=
  let st1 :=
    match awaited with
    | Resolved data => setGraphData data st
    | Rejected _ => setError (Some "Failed to load graph data") st
    end in
  setLoading false st1.

Definition loadGraphData (awaited : Settled GraphData) (st : GraphState) : GraphState :=
  loadGraphData_settle awaited (loadGraphData_begin st).

(** The page as it runs: the loader awaiting the gateway. *)
Definition loadFromGateway (response : Settled (option (list DbRecord)))
    (st : GraphState) : GraphState :=
  loadGraphData (getGraph response) st.

(** ** Hover handling and material opacities ([components/Graph3D.tsx]) *)

(** [handleNodeHover]: [setHoveredNode(node)], then either the neighbour
    sets of the hovered node or two fresh empty sets are written into the
    highlight fields with [useGraphStore.setState]. *)
Definition handleNodeHover (node : option GraphNode) (st : GraphState) : GraphState :=
  let st1 := setHoveredNode node st in
  match node with
  | Some n =>
      let neighbors := getNeighbors (node_id n) st1 in
      {| graphData := graphData st1;
         selectedNode := selectedNode st1;
         hoveredNode := hoveredNode st1;
         highlightedNodes := nbr_nodes neighbors;
         highlightedLinks := nbr_links neighbors;
         filterByType := filterByType st1;
         searchQuery := searchQuery st1;
         isLoading := isLoading st1;
         error := error st1 |}
  | None =>
      {| graphData := graphData st1;
         selectedNode := selectedNode st1;
         hoveredNode := hoveredNode st1;
         highlightedNodes := ∅;
         highlightedLinks := ∅;
         filterByType := filterByType st1;
         searchQuery := searchQuery st1;
         isLoading := isLoading st1;
         error := error st1 |}
  end.

(** [handleBackgroundClick] *)
Definition handleBackgroundClick (st : GraphState) : GraphState :=
  setSelectedNode None st.

Set Warnings "-inexact-float".

(** The [opacity] of the material [nodeThreeObject] builds:
    [highlightedNodes.size > 0 ? highlightedNodes.has(node.id) ? 1 : 0.3 : 1]. *)
Definition nodeOpacity (st : GraphState) (node : GraphNode) : float :=
  if Nat.ltb 0 (size (highlightedNodes st))
  then if bool_decide (node_id node ∈ highlightedNodes st)
       then 1%float else 0.3%float
  else 1%float.

(** The [opacity] of the material [linkThreeObject] builds:
    [highlightedLinks.size > 0 ? highlightedLinks.has(linkId) ? 0.8 : 0.2 : 0.5]. *)
Definition linkOpacity (st : GraphState) (link : GraphLink) : float :=
  let sourceId := endpointId (source link) in
  let targetId := endpointId (target link) in
  let linkId := linkIdOf sourceId targetId in
  if Nat.ltb 0 (size (highlightedLinks st))
  then if bool_decide (linkId ∈ highlightedLinks st)
       then 0.8%float else 0.2%float
  else 0.5%float.

(** ** Sample data used by the examples below *)

Definition plainNode (id name : string) (ty : NodeType) : GraphNode :=
  {| node_id := id; node_name := name; node_type := ty;
     node_val := 1%float; node_color := NODE_COLORS ty;
     node_metadata := None;
     node_x := None; node_y := None; node_z := None;
     node_fx := None; node_fy := None; node_fz := None |}.

Definition plainLink (s t : Endpoint) : GraphLink :=
  {| source := s; target := t; relationship := "RELATED_TO";
     strength := None; link_color := None |}.

Definition stateOf (g : GraphData) : GraphState :=
  setGraphData g initialState.

Definition renameTo (newId : string) : PartialGraphNode :=
  mkPartial (Some newId) None None None None None None None None None None None.

Definition dbPerson (name : string) : DbNode :=
  {| db_name := name; db_description := JsUndefined;
     db_category := JsString "Person" |}.

Definition dbRow (n m : string) : DbRecord :=
  {| rec_n := Some (dbPerson n);
     rec_r := Some {| db_type := Some "KNOWS" |};
     rec_m := Some (dbPerson m) |}.

Definition knows (n m : string) : GraphLink :=
  {| source := EndId n; target := EndId m; relationship := "KNOWS";
     strength := Some 1%float; link_color := None |}.

(** Rows as [MATCH (n)-[r]-(m)] returns them: each relationship once
    from either end. *)
Definition sampleResults : list DbRecord :=
  [dbRow "Ann" "Bob"; dbRow "Bob" "Ann"; dbRow "Bob" "Cy"; dbRow "Cy" "Bob"].

(** The graph [getGraph] builds from [sampleResults]. *)
Definition sampleGraph : GraphData :=
  {| nodes := map_values (in_nodes (ingestAll sampleResults));
     links := in_links (ingestAll sampleResults) |}.

(** The normalised (source, target) pair of a link. *)
Definition linkPair (l : GraphLink) : string * string :=
  (endpointId (source l), endpointId (target l)).

(** ** Predicates used in the statements *)

(** What one link contributes to the neighbour node set of [nodeId]:
    its target on the source-match branch, its source on the [else if]
    branch (taken only when the source did not match). *)
Definition contributesNode (nodeId b : string) (l : GraphLink) : Prop :=
  (endpointId (source l) = nodeId ∧ endpointId (target l) = b) ∨
  (endpointId (source l) ≠ nodeId ∧ endpointId (target l) = nodeId ∧
   endpointId (source l) = b).

Definition incident (nodeId : string) (l : GraphLink) : Prop :=
  endpointId (source l) = nodeId ∨ endpointId (target l) = nodeId.

(** Two pairs name the same unordered pair of nodes. *)
Definition sameUnordered (p q : string * string) : Prop :=
  p = q ∨ p = (q.2, q.1).

(** No two entries of a link list join the same unordered pair. *)
Definition oncePerPair (ls : list GraphLink) : Prop :=
  ∀ i j li lj, i < j → ls !! i = Some li → ls !! j = Some lj →
               ¬ sameUnordered (linkPair li) (linkPair lj).

(** What the loop of [getGraph] maintains: the identity string of every
    emitted link is in [linkSet], and the emitted links join pairwise
    different unordered pairs. *)
Record ingestInv (s : Ingest) : Prop := mkIngestInv {
  inv_recorded :
    ∀ l, l ∈ in_links s →
         linkIdOf (endpointId (source l)) (endpointId (target l)) ∈ in_linkSet s;
  inv_once : oncePerPair (in_links s)
}.

(** A row names a node: its [n] or its [m] is a node of that name. *)
Definition mentions (record : DbRecord) (name : string) : Prop :=
  (∃ d, rec_n record = Some d ∧ db_name d = name) ∨
  (∃ d, rec_m record = Some d ∧ db_name d = name).

(** A row carries a relationship between [n] and [m]: none of its three
    fields is null. *)
Definition relates (record : DbRecord) (n m : string) : Prop :=
  is_Some (rec_r record) ∧
  db_name <$> rec_n record = Some n ∧
  db_name <$> rec_m record = Some m.

(** The name contains no ["-"]. *)
Definition dashFree (name : string) : Prop := includes name "-" = false.

(** What the loop of [getGraph] maintains about the node map and the
    shape of the emitted links. *)
Record gatewayInv (s : Ingest) : Prop := mkGatewayInv {
  gi_keys : NoDup (List.map fst (in_nodes s));
  gi_nodes :
    ∀ k v, (k, v) ∈ in_nodes s → ∃ d, k = db_name d ∧ v = nodeOfDb d;
  gi_links :
    ∀ l, l ∈ in_links s →
         ∃ a b r,
           l = {| source := EndId a; target := EndId b;
                  relationship := relationshipOf r;
                  strength := Some 1%float; link_color := None |} ∧
           a ∈ List.map fst (in_nodes s) ∧ b ∈ List.map fst (in_nodes s)
}.

(** ** Properties of the store *)

(** [Array.prototype.filter] with a boolean callback keeps exactly the
    elements for which the decidable property the callback tests holds. *)
Lemma filter_callback {A} (f : A → bool) (P : A → Prop)
    `{∀ x, Decision (P x)} (l : list A) :
  (∀ x, f x = true ↔ P x) →
  List.filter f l = filter P l.
Proof.
  intros Hf. induction l as [|x l IH]; [reflexivity|].
  cbn [List.filter]. rewrite filter_cons.
  destruct (f x) eqn:Hx; case_decide as HP.
  - by rewrite IH.
  - apply Hf in Hx. contradiction.
  - apply Hf in HP. congruence.
  - exact IH.
Qed.

Lemma eqb_false_ne (a b : string) : negb (String.eqb a b) = true ↔ a ≠ b.
Proof.
  rewrite negb_true_iff. split.
  - intros H. by apply String.eqb_neq.
  - intros H. by apply String.eqb_neq.
Qed.

(** The predicate [removeNode] tests on links, as a proposition. *)
Lemma removeNode_keeps_link (nodeId : string) (l : GraphLink) :
  negb (String.eqb (endpointId (source l)) nodeId) &&
  negb (String.eqb (endpointId (target l)) nodeId) = true
  ↔ ¬ (endpointId (source l) = nodeId ∨ endpointId (target l) = nodeId).
Proof.
  rewrite andb_true_iff, !eqb_false_ne. tauto.
Qed.

(** C1: [removeNode nodeId] leaves the node sequence minus the nodes whose
    id is [nodeId], and the link sequence minus exactly the links one of
    whose endpoints, normalised to an id, is [nodeId]; what remains is a
    subsequence of what was there, so the order is kept; no other field of
    the state changes. *)
Theorem removeNode_spec (nodeId : string) (st : GraphState) :
  let st' := removeNode nodeId st in
  nodes (graphData st') =
    filter (λ n, node_id n ≠ nodeId) (nodes (graphData st)) ∧
  links (graphData st') =
    filter (λ l, ¬ (endpointId (source l) = nodeId ∨
                    endpointId (target l) = nodeId))
           (links (graphData st)) ∧
  nodes (graphData st') `sublist_of` nodes (graphData st) ∧
  links (graphData st') `sublist_of` links (graphData st) ∧
  (∀ n, n ∈ nodes (graphData st') ↔
        n ∈ nodes (graphData st) ∧ node_id n ≠ nodeId) ∧
  (∀ l, l ∈ links (graphData st') ↔
        l ∈ links (graphData st) ∧
        endpointId (source l) ≠ nodeId ∧ endpointId (target l) ≠ nodeId) ∧
  st' = withGraphData (graphData st') st.
Proof.
  intros st'.
  assert (Hn : nodes (graphData st') =
               filter (λ n, node_id n ≠ nodeId) (nodes (graphData st))).
  { subst st'. cbn. apply filter_callback. intros n. apply eqb_false_ne. }
  assert (Hl : links (graphData st') =
               filter (λ l, ¬ (endpointId (source l) = nodeId ∨
                               endpointId (target l) = nodeId))
                      (links (graphData st))).
  { subst st'. cbn. apply filter_callback. intros l.
    apply removeNode_keeps_link. }
  split; [exact Hn|]. split; [exact Hl|].
  rewrite Hn, Hl.
  split; [apply sublist_filter|]. split; [apply sublist_filter|].
  split; [|split].
  - intros n. rewrite list_elem_of_filter. tauto.
  - intros l. rewrite list_elem_of_filter. tauto.
  - reflexivity.
Qed.


(** C4: [clearGraph] empties the graph and clears [selectedNode]; the
    hover, highlight and filter fields (and the two status flags) keep the
    values they had before the call. *)
Theorem clearGraph_frame (st : GraphState) :
  graphData (clearGraph st) = {| nodes := []; links := [] |} ∧
  selectedNode (clearGraph st) = None ∧
  hoveredNode (clearGraph st) = hoveredNode st ∧
  highlightedNodes (clearGraph st) = highlightedNodes st ∧
  highlightedLinks (clearGraph st) = highlightedLinks st ∧
  filterByType (clearGraph st) = filterByType st ∧
  searchQuery (clearGraph st) = searchQuery st ∧
  isLoading (clearGraph st) = isLoading st ∧
  error (clearGraph st) = error st.
Proof. repeat split; reflexivity. Qed.

(** The predicate [removeLink] tests, as a proposition on the pair. *)
Lemma removeLink_keeps_link (sourceId targetId : string) (l : GraphLink) :
  negb (String.eqb (endpointId (source l)) sourceId &&
        String.eqb (endpointId (target l)) targetId) = true
  ↔ linkPair l ≠ (sourceId, targetId).
Proof.
  unfold linkPair.
  destruct (String.eqb_spec (endpointId (source l)) sourceId) as [->|Hs];
    destruct (String.eqb_spec (endpointId (target l)) targetId) as [->|Ht];
    cbn; split; try done; try congruence.
Qed.

(** C8, as stated, fails on a self pair: with [sourceId = targetId] the
    link whose pair is [(targetId, sourceId)] is the link being removed. *)
Lemma removeLink_reverse_counterexample :
  ¬ (∀ (st : GraphState) (sourceId targetId : string) (l : GraphLink),
       l ∈ links (graphData st) →
       linkPair l = (targetId, sourceId) →
       l ∈ links (graphData (removeLink sourceId targetId st))).
Proof.
  intros H.
  specialize (H (stateOf (mkGraph [] [plainLink (EndId "a") (EndId "a")]))
                "a" "a" (plainLink (EndId "a") (EndId "a"))).
  cbn in H. specialize (H ltac:(by left) eq_refl).
  by apply not_elem_of_nil in H.
Qed.

(** C8 (amended): [removeLink sourceId targetId] drops exactly the links
    whose normalised pair is [(sourceId, targetId)], keeps the others in
    order and touches nothing else; when [sourceId ≠ targetId] every link
    whose pair is the reverse [(targetId, sourceId)] is retained. *)
Theorem removeLink_spec (sourceId targetId : string) (st : GraphState) :
  let st' := removeLink sourceId targetId st in
  links (graphData st') =
    filter (λ l, linkPair l ≠ (sourceId, targetId)) (links (graphData st)) ∧
  (∀ l, l ∈ links (graphData st') ↔
        l ∈ links (graphData st) ∧ linkPair l ≠ (sourceId, targetId)) ∧
  nodes (graphData st') = nodes (graphData st) ∧
  st' = withGraphData (graphData st') st ∧
  (sourceId ≠ targetId →
   filter (λ l, linkPair l = (targetId, sourceId)) (links (graphData st')) =
   filter (λ l, linkPair l = (targetId, sourceId)) (links (graphData st)) ∧
   ∀ l, l ∈ links (graphData st) → linkPair l = (targetId, sourceId) →
        l ∈ links (graphData st')).
Proof.
  intros st'.
  assert (Hl : links (graphData st') =
               filter (λ l, linkPair l ≠ (sourceId, targetId))
                      (links (graphData st))).
  { subst st'. cbn. apply filter_callback. intros l.
    apply removeLink_keeps_link. }
  split; [exact Hl|]. rewrite Hl.
  split; [intros l; rewrite list_elem_of_filter; tauto|].
  split; [reflexivity|]. split; [reflexivity|].
  intros Hne.
  assert (Hrev : ∀ l, linkPair l = (targetId, sourceId) →
                      linkPair l ≠ (sourceId, targetId)).
  { intros l -> [= H1 H2]. congruence. }
  split.
  - by apply list_filter_filter_l.
  - intros l Hin Hp. apply list_elem_of_filter. split; [by apply Hrev|done].
Qed.

(** The theorem at [removeLink "a" "b"] on the links [a→b; b→a]. *)
Lemma removeLink_spec_witness :
  links (graphData
           (removeLink "a" "b"
              (stateOf (mkGraph [] [plainLink (EndId "a") (EndId "b");
                                    plainLink (EndId "b") (EndId "a")])))) =
    [plainLink (EndId "b") (EndId "a")] ∧
  plainLink (EndId "b") (EndId "a") ∈
    links (graphData
             (removeLink "a" "b"
                (stateOf (mkGraph [] [plainLink (EndId "a") (EndId "b");
                                      plainLink (EndId "b") (EndId "a")])))).
Proof.
  split; [reflexivity|].
  pose proof (removeLink_spec "a" "b"
    (stateOf (mkGraph [] [plainLink (EndId "a") (EndId "b");
                          plainLink (EndId "b") (EndId "a")]))) as H.
  cbv zeta in H. destruct H as (_ & _ & _ & _ & H).
  destruct (H ltac:(discriminate)) as [_ Hkeep].
  apply Hkeep; [|reflexivity].
  right. left.
Defined.

(** ** Neighbour lookup *)

Lemma visitLink_nodes (nodeId b : string) (acc : Neighbors) (l : GraphLink) :
  b ∈ nbr_nodes (visitLink nodeId acc l) ↔
  b ∈ nbr_nodes acc ∨ contributesNode nodeId b l.
Proof.
  unfold visitLink, contributesNode.
  destruct (String.eqb_spec (endpointId (source l)) nodeId) as [Hs|Hs];
    [|destruct (String.eqb_spec (endpointId (target l)) nodeId) as [Ht|Ht]];
    cbn; rewrite ?elem_of_union, ?elem_of_singleton; intuition congruence.
Qed.

Lemma visitLink_links (nodeId k : string) (acc : Neighbors) (l : GraphLink) :
  k ∈ nbr_links (visitLink nodeId acc l) ↔
  k ∈ nbr_links acc ∨
  (incident nodeId l ∧
   k = linkIdOf (endpointId (source l)) (endpointId (target l))).
Proof.
  unfold visitLink, incident.
  destruct (String.eqb_spec (endpointId (source l)) nodeId) as [Hs|Hs];
    [|destruct (String.eqb_spec (endpointId (target l)) nodeId) as [Ht|Ht]];
    cbn; rewrite ?elem_of_union, ?elem_of_singleton; intuition congruence.
Qed.

Lemma fold_visitLink_nodes (nodeId b : string) (ls : list GraphLink) :
  ∀ acc,
    b ∈ nbr_nodes (fold_left (visitLink nodeId) ls acc) ↔
    b ∈ nbr_nodes acc ∨ ∃ l, l ∈ ls ∧ contributesNode nodeId b l.
Proof.
  induction ls as [|l ls IH]; intros acc; cbn [fold_left].
  - split; [by left|]. intros [H|(l & Hl & _)]; [done|].
    by apply not_elem_of_nil in Hl.
  - rewrite IH, visitLink_nodes. split.
    + intros [[H|H]|(l' & Hl' & H)].
      * by left.
      * right. exists l. split; [left|done].
      * right. exists l'. split; [by right|done].
    + intros [H|(l' & Hl' & H)].
      * by left; left.
      * apply elem_of_cons in Hl' as [->|Hl'].
        -- by left; right.
        -- right. by exists l'.
Qed.

Lemma fold_visitLink_links (nodeId k : string) (ls : list GraphLink) :
  ∀ acc,
    k ∈ nbr_links (fold_left (visitLink nodeId) ls acc) ↔
    k ∈ nbr_links acc ∨
    ∃ l, l ∈ ls ∧ incident nodeId l ∧
         k = linkIdOf (endpointId (source l)) (endpointId (target l)).
Proof.
  induction ls as [|l ls IH]; intros acc; cbn [fold_left].
  - split; [by left|]. intros [H|(l & Hl & _)]; [done|].
    by apply not_elem_of_nil in Hl.
  - rewrite IH, visitLink_links. split.
    + intros [[H|H]|(l' & Hl' & H)].
      * by left.
      * right. exists l. split; [left|done].
      * right. exists l'. split; [by right|done].
    + intros [H|(l' & Hl' & H)].
      * by left; left.
      * apply elem_of_cons in Hl' as [->|Hl'].
        -- by left; right.
        -- right. by exists l'.
Qed.

(** The node ids [getNeighbors] returns are the contributions of the
    links of the graph, and the link ids are those of the incident links. *)
Lemma getNeighbors_nodes (nodeId b : string) (st : GraphState) :
  b ∈ nbr_nodes (getNeighbors nodeId st) ↔
  ∃ l, l ∈ links (graphData st) ∧ contributesNode nodeId b l.
Proof.
  unfold getNeighbors. rewrite fold_visitLink_nodes. cbn.
  split; [intros [H|H]; [set_solver|done] | by right].
Qed.

Lemma getNeighbors_links (nodeId k : string) (st : GraphState) :
  k ∈ nbr_links (getNeighbors nodeId st) ↔
  ∃ l, l ∈ links (graphData st) ∧ incident nodeId l ∧
       k = linkIdOf (endpointId (source l)) (endpointId (target l)).
Proof.
  unfold getNeighbors. rewrite fold_visitLink_links. cbn.
  split; [intros [H|H]; [set_solver|done] | by right].
Qed.

(** A link that makes [b] a neighbour of [a] makes [a] a neighbour of
    [b], whichever way it points and however its endpoints are stored. *)
Lemma contributesNode_sym (a b : string) (l : GraphLink) :
  contributesNode a b l → contributesNode b a l.
Proof.
  unfold contributesNode.
  intros [[Hs Ht]|(Hs & Ht & Hb)].
  - destruct (decide (a = b)) as [->|Hab].
    + by left.
    + right. repeat split; congruence.
  - left. by split.
Qed.

(** C2: [getNeighbors] is symmetric: if [B] is among the neighbour nodes
    of [A] then [A] is among the neighbour nodes of [B], for links of
    either direction and endpoints of either representation. *)
Theorem getNeighbors_symmetric (st : GraphState) (A B : string) :
  B ∈ nbr_nodes (getNeighbors A st) →
  A ∈ nbr_nodes (getNeighbors B st).
Proof.
  rewrite !getNeighbors_nodes. intros (l & Hl & Hc).
  exists l. split; [done|]. by apply contributesNode_sym.
Qed.

(** The theorem on a graph whose one link points from ["b"], held as a
    node reference, to ["a"], held as an id. *)
Lemma getNeighbors_symmetric_witness :
  "a" ∈ nbr_nodes
          (getNeighbors "b"
             (stateOf (mkGraph []
                [plainLink (EndRef (plainNode "b" "Bob" person)) (EndId "a")]))).
Proof.
  apply (getNeighbors_symmetric
           (stateOf (mkGraph []
              [plainLink (EndRef (plainNode "b" "Bob" person)) (EndId "a")]))
           "a" "b").
  apply (bool_decide_unpack _). vm_compute. exact I.
Defined.

(** C7: a self-link on [nodeId] puts [nodeId] into its own neighbour node
    set and its identity string [nodeId-nodeId] into the link set. *)
Theorem getNeighbors_self_link (st : GraphState) (nodeId : string) (l : GraphLink) :
  l ∈ links (graphData st) →
  endpointId (source l) = nodeId →
  endpointId (target l) = nodeId →
  nodeId ∈ nbr_nodes (getNeighbors nodeId st) ∧
  (nodeId ++ "-" ++ nodeId)%string ∈ nbr_links (getNeighbors nodeId st).
Proof.
  intros Hl Hs Ht. split.
  - apply getNeighbors_nodes. exists l. split; [done|]. by left.
  - apply getNeighbors_links. exists l. split; [done|].
    split; [by left|]. by rewrite Hs, Ht.
Qed.

Lemma getNeighbors_self_link_witness :
  "n" ∈ nbr_nodes
          (getNeighbors "n"
             (stateOf (mkGraph [plainNode "n" "Nora" person]
                [plainLink (EndId "n") (EndRef (plainNode "n" "Nora" person))]))) ∧
  "n-n" ∈ nbr_links
          (getNeighbors "n"
             (stateOf (mkGraph [plainNode "n" "Nora" person]
                [plainLink (EndId "n") (EndRef (plainNode "n" "Nora" person))]))).
Proof.
  apply (getNeighbors_self_link
           (stateOf (mkGraph [plainNode "n" "Nora" person]
              [plainLink (EndId "n") (EndRef (plainNode "n" "Nora" person))]))
           "n"
           (plainLink (EndId "n") (EndRef (plainNode "n" "Nora" person)))).
  - left.
  - reflexivity.
  - reflexivity.
Defined.

(** ** [updateNode] and the identity field *)

Lemma updateNode_absent (nodeId : string) (u : PartialGraphNode) (ns : list GraphNode) :
  Forall (λ m, node_id m ≠ nodeId) ns →
  List.map (fun n => if String.eqb (node_id n) nodeId then spreadNode n u else n) ns
  = ns.
Proof.
  induction 1 as [|m ns Hm _ IH]; [reflexivity|].
  cbn. rewrite IH.
  destruct (String.eqb_spec (node_id m) nodeId); [contradiction|reflexivity].
Qed.

(** C10: when exactly one node has id [A] and the update carries an [id]
    field [B ≠ A], [updateNode A u] gives that node the id [B] and leaves
    the links as they were, so no node has id [A] any more and a link
    endpoint that names [A] by id string refers to no node; a second
    [updateNode A u'] then changes nothing. *)
Theorem updateNode_overwrites_id
    (st : GraphState) (A B : string) (u u' : PartialGraphNode)
    (pre post : list GraphNode) (n : GraphNode) :
  nodes (graphData st) = pre ++ n :: post →
  node_id n = A →
  Forall (λ m, node_id m ≠ A) pre →
  Forall (λ m, node_id m ≠ A) post →
  u_id u = Some B →
  B ≠ A →
  let st1 := updateNode A u st in
  nodes (graphData st1) = pre ++ spreadNode n u :: post ∧
  node_id (spreadNode n u) = B ∧
  links (graphData st1) = links (graphData st) ∧
  (∀ m, m ∈ nodes (graphData st1) → node_id m ≠ A) ∧
  (∀ l, l ∈ links (graphData st1) → source l = EndId A →
        ¬ ∃ m, m ∈ nodes (graphData st1) ∧ node_id m = endpointId (source l)) ∧
  (∀ l, l ∈ links (graphData st1) → target l = EndId A →
        ¬ ∃ m, m ∈ nodes (graphData st1) ∧ node_id m = endpointId (target l)) ∧
  updateNode A u' st1 = st1.
Proof.
  intros Hns HnA Hpre Hpost Hu HBA st1.
  assert (Hid : node_id (spreadNode n u) = B) by (cbn; by rewrite Hu).
  assert (Hns1 : nodes (graphData st1) = pre ++ spreadNode n u :: post).
  { subst st1. cbn. rewrite Hns, map_app. cbn.
    rewrite !updateNode_absent by done.
    destruct (String.eqb_spec (node_id n) A); [reflexivity|contradiction]. }
  assert (Hgone : Forall (λ m, node_id m ≠ A) (nodes (graphData st1))).
  { rewrite Hns1. apply Forall_app. split; [done|].
    constructor; [congruence|done]. }
  split; [exact Hns1|]. split; [exact Hid|]. split; [reflexivity|].
  split; [by apply Forall_forall|].
  split; [|split].
  - intros l _ Hs (m & Hm & Hmid). rewrite Hs in Hmid. cbn in Hmid.
    by eapply Forall_forall in Hgone.
  - intros l _ Ht (m & Hm & Hmid). rewrite Ht in Hmid. cbn in Hmid.
    by eapply Forall_forall in Hgone.
  - unfold updateNode at 1. rewrite updateNode_absent by done.
    by destruct st1 as [[] ? ? ? ? ? ? ? ?].
Qed.

(** The theorem on nodes [a; b] with a link [a → b] held by id strings,
    renaming ["a"] to ["z"]. *)
Lemma updateNode_overwrites_id_witness :
  nodes (graphData
           (updateNode "a" (renameTo "z")
              (stateOf (mkGraph [plainNode "a" "Ann" person; plainNode "b" "Bob" person]
                                [plainLink (EndId "a") (EndId "b")])))) =
    [plainNode "z" "Ann" person; plainNode "b" "Bob" person] ∧
  links (graphData
           (updateNode "a" (renameTo "z")
              (stateOf (mkGraph [plainNode "a" "Ann" person; plainNode "b" "Bob" person]
                                [plainLink (EndId "a") (EndId "b")])))) =
    [plainLink (EndId "a") (EndId "b")] ∧
  updateNode "a" (renameTo "q")
    (updateNode "a" (renameTo "z")
       (stateOf (mkGraph [plainNode "a" "Ann" person; plainNode "b" "Bob" person]
                         [plainLink (EndId "a") (EndId "b")]))) =
  updateNode "a" (renameTo "z")
    (stateOf (mkGraph [plainNode "a" "Ann" person; plainNode "b" "Bob" person]
                      [plainLink (EndId "a") (EndId "b")])).
Proof.
  assert (Hb : node_id (plainNode "b" "Bob" person) ≠ "a") by discriminate.
  assert (Hz : "z" ≠ "a") by discriminate.
  pose proof (updateNode_overwrites_id
    (stateOf (mkGraph [plainNode "a" "Ann" person; plainNode "b" "Bob" person]
                      [plainLink (EndId "a") (EndId "b")]))
    "a" "z" (renameTo "z") (renameTo "q")
    [] [plainNode "b" "Bob" person] (plainNode "a" "Ann" person)
    eq_refl eq_refl (Forall_nil_2 _)
    (Forall_cons_2 (λ m, node_id m ≠ "a") _ _ Hb (Forall_nil_2 _))
    eq_refl Hz) as H.
  cbv zeta in H. destruct H as (H1 & _ & H3 & _ & _ & _ & H7).
  split; [exact H1|]. split; [exact H3|]. exact H7.
Defined.

(** ** The derived filtered view *)

Lemma prefix_app (a b : string) :
  String.prefix a b = true ↔ ∃ post, b = (a ++ post)%string.
Proof.
  revert b. induction a as [|c a IH]; intros b.
  - split; [intros _; by exists b | by destruct b].
  - destruct b as [|d b]; cbn.
    + split; [discriminate | intros [post [=]]].
    + destruct (Ascii.ascii_dec c d) as [->|Hcd].
      * rewrite IH. split; intros [post Hp]; exists post.
        -- cbn. by rewrite Hp.
        -- cbn in Hp. by injection Hp.
      * split; [discriminate|]. intros [post Hp]. cbn in Hp.
        injection Hp as Hd _. by destruct Hcd.
Qed.

(** [includes s sub] holds exactly when [sub] occurs somewhere in [s]. *)
Lemma includes_spec (s sub : string) :
  includes s sub = true ↔ ∃ pre post, s = (pre ++ sub ++ post)%string.
Proof.
  induction s as [|c s IH].
  - cbn [includes]. rewrite orb_false_r, prefix_app. split.
    + intros [post ->]. by exists "", post.
    + intros (pre & post & H). exists post.
      destruct pre; [exact H | discriminate].
  - cbn [includes]. rewrite orb_true_iff, prefix_app, IH. split.
    + intros [[post ->]|(pre & post & ->)].
      * by exists "", post.
      * by exists (String c pre), post.
    + intros (pre & post & H). destruct pre as [|d pre].
      * left. by exists post.
      * right. injection H as _ ->. by exists pre, post.
Qed.

Lemma bothEndpointsIn_spec (ns : list GraphNode) (l : GraphLink) :
  bothEndpointsIn (nodeIdSet ns) l = true ↔
  endpointId (source l) ∈ List.map node_id ns ∧
  endpointId (target l) ∈ List.map node_id ns.
Proof.
  unfold bothEndpointsIn, nodeIdSet.
  rewrite andb_true_iff, !bool_decide_eq_true, !elem_of_list_to_set.
  reflexivity.
Qed.

Lemma node_ids_filter_subseteq (P : GraphNode → Prop)
    `{∀ n, Decision (P n)} (ns : list GraphNode) (i : string) :
  i ∈ List.map node_id (filter P ns) → i ∈ List.map node_id ns.
Proof.
  change (i ∈ node_id <$> filter P ns → i ∈ node_id <$> ns).
  rewrite !list_elem_of_fmap. intros (n & -> & Hn).
  exists n. split; [done|]. by apply list_elem_of_filter in Hn as [_ ?].
Qed.

(** C3: with a type filter and a non-empty search query set, the view
    holds the nodes of that type whose lower-cased name contains the
    lower-cased query; its links are the links that survived the type
    filter's pruning, pruned again against the ids of the nodes that
    survived both filters, which are the links of the snapshot with both
    endpoints among those ids. On the two-node example ([Alice] a person,
    [Alicetown Fair] an event), type [person] and query ["alice"] leave
    node ["1"] alone. *)
Theorem filteredData_sequential :
  (∀ (st : GraphState) (ty : NodeType) (c : ascii) (q : string),
     let query := String c q in
     let st' := setSearchQuery query (setFilterByType (Some ty) st) in
     let typed := filter (λ n, node_type n = ty) (nodes (graphData st)) in
     let typedLinks :=
       filter (λ l, endpointId (source l) ∈ List.map node_id typed ∧
                    endpointId (target l) ∈ List.map node_id typed)
              (links (graphData st)) in
     let kept := filter (λ n, nameMatches query n = true) typed in
     nodes (filteredData st') = kept ∧
     links (filteredData st') =
       filter (λ l, endpointId (source l) ∈ List.map node_id kept ∧
                    endpointId (target l) ∈ List.map node_id kept)
              typedLinks ∧
     links (filteredData st') =
       filter (λ l, endpointId (source l) ∈ List.map node_id kept ∧
                    endpointId (target l) ∈ List.map node_id kept)
              (links (graphData st)) ∧
     (∀ n, n ∈ nodes (filteredData st') ↔
           n ∈ nodes (graphData st) ∧ node_type n = ty ∧
           ∃ pre post,
             toLowerCase (node_name n) =
             (pre ++ toLowerCase query ++ post)%string)) ∧
  (let node1 := plainNode "1" "Alice" person in
   let node2 := plainNode "2" "Alicetown Fair" event in
   let st := setSearchQuery "alice"
               (setFilterByType (Some person)
                  (stateOf (mkGraph [node1; node2] []))) in
   nameMatches "alice" node2 = true ∧
   filteredData st = {| nodes := [node1]; links := [] |}).
Proof.
  split; [|split; reflexivity].
  intros st ty c q query st' typed typedLinks kept.
  assert (Htyped :
    List.filter (fun node => bool_decide (node_type node = ty))
                (nodes (graphData st)) = typed).
  { apply filter_callback. intros n. apply bool_decide_eq_true. }
  assert (Hkept : List.filter (nameMatches query) typed = kept).
  { apply filter_callback. intros n. reflexivity. }
  assert (HtypedLinks :
    List.filter (bothEndpointsIn (nodeIdSet typed)) (links (graphData st))
    = typedLinks).
  { apply filter_callback. intros l. apply bothEndpointsIn_spec. }
  assert (Hnodes : nodes (filteredData st') = kept).
  { subst st'. unfold filteredData. cbn. by rewrite Htyped, Hkept. }
  assert (Hlinks : links (filteredData st') =
    filter (λ l, endpointId (source l) ∈ List.map node_id kept ∧
                 endpointId (target l) ∈ List.map node_id kept) typedLinks).
  { subst st'. unfold filteredData. cbn.
    rewrite Htyped, Hkept, HtypedLinks.
    apply filter_callback. intros l. apply bothEndpointsIn_spec. }
  split; [exact Hnodes|]. split; [exact Hlinks|]. split.
  - rewrite Hlinks. subst typedLinks. apply list_filter_filter_l.
    intros l [Hs Ht]. subst kept.
    split; eapply node_ids_filter_subseteq; eassumption.
  - intros n. rewrite Hnodes. subst kept typed.
    rewrite !list_elem_of_filter. unfold nameMatches.
    rewrite includes_spec. tauto.
Qed.

(** C6: with no type filter and an empty search query, the view read
    after [setGraphData S] is [S] itself. *)
Theorem filteredData_roundtrip (S : GraphData) (st : GraphState) :
  filterByType st = None →
  searchQuery st = "" →
  filteredData (setGraphData S st) = S.
Proof.
  intros Hty Hq. unfold filteredData. cbn. rewrite Hty, Hq. cbn.
  by destruct S.
Qed.

Lemma filteredData_roundtrip_witness :
  filteredData
    (setGraphData
       (mkGraph [plainNode "b" "Bob" person; plainNode "a" "Ann" event]
                [plainLink (EndId "b") (EndId "a");
                 plainLink (EndId "a") (EndId "ghost")])
       initialState) =
  mkGraph [plainNode "b" "Bob" person; plainNode "a" "Ann" event]
          [plainLink (EndId "b") (EndId "a");
           plainLink (EndId "a") (EndId "ghost")].
Proof.
  apply (filteredData_roundtrip
           (mkGraph [plainNode "b" "Bob" person; plainNode "a" "Ann" event]
                    [plainLink (EndId "b") (EndId "a");
                     plainLink (EndId "a") (EndId "ghost")])
           initialState).
  - reflexivity.
  - reflexivity.
Defined.

(** ** The loader and the gateway *)

(** The [finally] clause: whichever way the awaited promise settles,
    [isLoading] is false when [loadGraphData] is done. *)
Lemma loadGraphData_clears_isLoading (awaited : Settled GraphData) (st : GraphState) :
  isLoading (loadGraphData awaited st) = false.
Proof. by destruct awaited. Qed.

(** The [catch] clause of the call site: a rejection of the awaited
    promise records the message and leaves the graph alone. *)
Lemma loadGraphData_on_rejection (reason : string) (st : GraphState) :
  error (loadGraphData (Rejected reason) st) = Some "Failed to load graph data" ∧
  isLoading (loadGraphData (Rejected reason) st) = false ∧
  graphData (loadGraphData (Rejected reason) st) = graphData st.
Proof. repeat split. Qed.

Lemma loadGraphData_on_success (data : GraphData) (st : GraphState) :
  graphData (loadGraphData (Resolved data) st) = data ∧
  isLoading (loadGraphData (Resolved data) st) = false ∧
  error (loadGraphData (Resolved data) st) = error st.
Proof. repeat split. Qed.

(** [graphApi.getGraph] never rejects: its own [catch] turns a failed
    request into the empty graph. *)
Lemma getGraph_always_resolves (response : Settled (option (list DbRecord))) :
  ∃ g, getGraph response = Resolved g.
Proof. destruct response as [[rs|]|reason]; cbn; eauto. Qed.

Lemma getGraph_failed_request (reason : string) :
  getGraph (Rejected reason) = Resolved {| nodes := []; links := [] |}.
Proof. reflexivity. Qed.

(** With the gateway in front of it the call site's [catch] is never
    entered: after a failed request the graph is the empty graph and the
    [error] field is what it was. *)
Lemma loadFromGateway_failed_request_general (reason : string) (st : GraphState) :
  graphData (loadFromGateway (Rejected reason) st) = {| nodes := []; links := [] |} ∧
  error (loadFromGateway (Rejected reason) st) = error st ∧
  isLoading (loadFromGateway (Rejected reason) st) = false.
Proof. repeat split. Qed.

(** C5: a failed load is meant to leave the message in [error], clear
    [isLoading] and keep the graph. The page at a failed request, starting
    from a store that holds one node and no error, ends with [isLoading]
    cleared but with [error] still empty and the graph replaced by the
    empty graph. *)
Theorem loadFromGateway_failed_request :
  let st := stateOf (mkGraph [plainNode "a" "Ann" person] []) in
  let st' := loadFromGateway (Rejected "Network Error") st in
  graphData st' = {| nodes := []; links := [] |} ∧
  graphData st' ≠ graphData st ∧
  error st' = None ∧
  isLoading st' = false.
Proof. cbn. repeat split. discriminate. Qed.

(** With the variant of [getGraph] that has no [try] of its own, the same
    failed request reaches the call site's [catch]. *)
Lemma loadGraphData_plain_failed_request (reason : string) (st : GraphState) :
  error (loadGraphData (getGraph_plain (Rejected reason)) st)
    = Some "Failed to load graph data" ∧
  graphData (loadGraphData (getGraph_plain (Rejected reason)) st) = graphData st.
Proof. repeat split. Qed.

(** ** De-duplication of links in the gateway *)

Lemma ingestInv_init : ingestInv (mkIngest [] [] ∅).
Proof.
  split.
  - intros l Hl. by apply not_elem_of_nil in Hl.
  - intros i j li lj _ Hi. cbn in Hi. by rewrite lookup_nil in Hi.
Qed.

Lemma oncePerPair_snoc (ls : list GraphLink) (new : GraphLink) :
  oncePerPair ls →
  (∀ l, l ∈ ls → ¬ sameUnordered (linkPair l) (linkPair new)) →
  oncePerPair (ls ++ [new]).
Proof.
  intros Hold Hnew i j li lj Hij Hi Hj.
  assert (Hjlen : j < length (ls ++ [new])) by (by eapply lookup_lt_Some).
  rewrite length_app in Hjlen. cbn in Hjlen.
  destruct (decide (j < length ls)) as [Hlt|Hge].
  - rewrite lookup_app_l in Hi by lia. rewrite lookup_app_l in Hj by lia.
    exact (Hold i j li lj Hij Hi Hj).
  - assert (j = length ls) as -> by lia.
    rewrite lookup_app_l in Hi by lia.
    rewrite list_lookup_middle in Hj by done. injection Hj as <-.
    apply Hnew. by eapply list_elem_of_lookup_2.
Qed.

Lemma ingestLink_inv (record : DbRecord) (s : Ingest) :
  ingestInv s → ingestInv (ingestLink record s).
Proof.
  intros [Hrec Honce]. unfold ingestLink.
  destruct (rec_r record) as [r|]; [|by split].
  destruct (rec_n record) as [n|]; [|by split].
  destruct (rec_m record) as [m|]; [|by split].
  destruct (negb (bool_decide (linkIdOf (db_name n) (db_name m) ∈ in_linkSet s)) &&
            negb (bool_decide (linkIdOf (db_name m) (db_name n) ∈ in_linkSet s)))
    eqn:Hguard; [|by split].
  apply andb_true_iff in Hguard as [Hfwd Hbwd].
  apply negb_true_iff, bool_decide_eq_false in Hfwd, Hbwd.
  split; cbn.
  - intros l Hl. apply elem_of_app in Hl as [Hl|Hl].
    + apply elem_of_union_l. by apply Hrec.
    + apply list_elem_of_singleton in Hl as ->. cbn.
      apply elem_of_union_r. by apply elem_of_singleton.
  - apply oncePerPair_snoc; [done|].
    intros l Hl Hsame. specialize (Hrec l Hl).
    unfold sameUnordered, linkPair in Hsame. cbn in Hsame.
    destruct Hsame as [[= Hs Ht]|[= Hs Ht]]; rewrite Hs, Ht in Hrec; done.
Qed.

Lemma ingestRecord_inv (s : Ingest) (record : DbRecord) :
  ingestInv s → ingestInv (ingestRecord s record).
Proof.
  intros [Hrec Honce]. unfold ingestRecord.
  apply ingestLink_inv. by split.
Qed.

Lemma fold_ingestRecord_inv (results : list DbRecord) :
  ∀ s, ingestInv s → ingestInv (fold_left ingestRecord results s).
Proof.
  induction results as [|record results IH]; intros s Hs; [done|].
  cbn [fold_left]. by apply IH, ingestRecord_inv.
Qed.

(** [linkSet] only grows. *)
Lemma ingestRecord_linkSet_mono (s : Ingest) (record : DbRecord) :
  in_linkSet s ⊆ in_linkSet (ingestRecord s record).
Proof.
  unfold ingestRecord, ingestLink. cbn.
  destruct (rec_r record), (rec_n record), (rec_m record); try done.
  destruct (_ && _); cbn; [|done]. apply union_subseteq_l.
Qed.

Lemma fold_ingestRecord_linkSet_mono (results : list DbRecord) :
  ∀ s, in_linkSet s ⊆ in_linkSet (fold_left ingestRecord results s).
Proof.
  induction results as [|record results IH]; intros s; [done|].
  cbn [fold_left]. etrans; [apply ingestRecord_linkSet_mono|apply IH].
Qed.

(** A record whose endpoints are [(n, m)] or [(m, n)] adds no link once
    the identity [n-m] is in [linkSet]. *)
Lemma ingestRecord_suppressed (s : Ingest) (record : DbRecord) (n m : string) :
  linkIdOf n m ∈ in_linkSet s →
  (db_name <$> rec_n record, db_name <$> rec_m record) = (Some n, Some m) ∨
  (db_name <$> rec_n record, db_name <$> rec_m record) = (Some m, Some n) →
  in_links (ingestRecord s record) = in_links s.
Proof.
  intros Hin Hends. unfold ingestRecord, ingestLink. cbn.
  destruct (rec_r record) as [r|]; [|done].
  destruct (rec_n record) as [dn|]; [|done].
  destruct (rec_m record) as [dm|]; [|done].
  cbn in Hends.
  destruct Hends as [[= -> ->]|[= -> ->]].
  - rewrite (bool_decide_eq_true_2 _ Hin). done.
  - rewrite (bool_decide_eq_true_2 _ Hin). by rewrite andb_false_r.
Qed.

(** C9: the links [getGraph] returns join pairwise different unordered
    pairs of node names; and once the identity [n-m] is in [linkSet], no
    record processed later whose endpoints are [(n, m)] or [(m, n)] adds a
    link. *)
Theorem getGraph_one_link_per_pair :
  (∀ (response : Settled (option (list DbRecord))) (g : GraphData),
     getGraph response = Resolved g → oncePerPair (links g)) ∧
  (∀ (s : Ingest) (later : list DbRecord) (record : DbRecord) (n m : string),
     linkIdOf n m ∈ in_linkSet s →
     (db_name <$> rec_n record, db_name <$> rec_m record) = (Some n, Some m) ∨
     (db_name <$> rec_n record, db_name <$> rec_m record) = (Some m, Some n) →
     in_links (ingestRecord (fold_left ingestRecord later s) record) =
     in_links (fold_left ingestRecord later s)).
Proof.
  split.
  - intros response g Hg.
    destruct response as [[rs|]|reason]; cbn in Hg; injection Hg as <-; cbn.
    + apply (fold_ingestRecord_inv rs _ ingestInv_init).
    + apply ingestInv_init.
    + apply ingestInv_init.
  - intros s later record n m Hin Hends.
    eapply ingestRecord_suppressed; [|exact Hends].
    by apply fold_ingestRecord_linkSet_mono.
Qed.

Example getGraph_sampleResults_links :
  ∃ ns, getGraph (Resolved (Some sampleResults)) =
        Resolved {| nodes := ns; links := [knows "Ann" "Bob"; knows "Bob" "Cy"] |}.
Proof. eexists. vm_compute. reflexivity. Qed.

(** The theorem on [sampleResults]: the two emitted links join different
    pairs, and the row [Bob, Ann], met after [Ann-Bob] was recorded and a
    further row was processed, adds nothing. *)
Lemma getGraph_one_link_per_pair_witness :
  ¬ sameUnordered ("Ann", "Bob") ("Bob", "Cy") ∧
  in_links (ingestRecord
              (fold_left ingestRecord [dbRow "Bob" "Cy"] (ingestAll [dbRow "Ann" "Bob"]))
              (dbRow "Bob" "Ann")) =
  in_links (fold_left ingestRecord [dbRow "Bob" "Cy"] (ingestAll [dbRow "Ann" "Bob"])).
Proof.
  destruct getGraph_one_link_per_pair as [Honce Hlater].
  split.
  - apply (Honce (Resolved (Some sampleResults))
                 {| nodes := map_values (in_nodes (ingestAll sampleResults));
                    links := in_links (ingestAll sampleResults) |}
                 eq_refl 0 1 (knows "Ann" "Bob") (knows "Bob" "Cy")).
    + lia.
    + vm_compute. reflexivity.
    + vm_compute. reflexivity.
  - apply (Hlater (ingestAll [dbRow "Ann" "Bob"]) [dbRow "Bob" "Cy"]
                  (dbRow "Bob" "Ann") "Ann" "Bob").
    + apply (bool_decide_unpack _). vm_compute. exact I.
    + right. reflexivity.
Defined.

(** ** Further properties of the store operations *)

Lemma List_filter_all {A} (f : A → bool) (l : list A) :
  (∀ x, x ∈ l → f x = true) → List.filter f l = l.
Proof.
  induction l as [|x l IH]; intros H; [reflexivity|].
  cbn. rewrite (H x) by left. rewrite IH; [reflexivity|].
  intros y Hy. apply H. by right.
Qed.

Lemma List_filter_idem {A} (f : A → bool) (l : list A) :
  List.filter f (List.filter f l) = List.filter f l.
Proof.
  apply List_filter_all. intros x Hx.
  apply list_elem_of_In, filter_In in Hx. tauto.
Qed.

Lemma List_filter_comm {A} (f g : A → bool) (l : list A) :
  List.filter f (List.filter g l) = List.filter g (List.filter f l).
Proof.
  induction l as [|x l IH]; [reflexivity|].
  cbn. destruct (g x) eqn:Hg, (f x) eqn:Hf; cbn; rewrite ?Hg, ?Hf, IH; reflexivity.
Qed.

(** Removing a node twice is removing it once. *)
Theorem removeNode_idempotent (nodeId : string) (st : GraphState) :
  removeNode nodeId (removeNode nodeId st) = removeNode nodeId st.
Proof.
  unfold removeNode, withGraphData. cbn. by rewrite !List_filter_idem.
Qed.

(** Two removals can be done in either order. *)
Theorem removeNode_comm (a b : string) (st : GraphState) :
  removeNode a (removeNode b st) = removeNode b (removeNode a st).
Proof.
  unfold removeNode, withGraphData. cbn.
  rewrite (List_filter_comm _ _ (nodes (graphData st))).
  by rewrite (List_filter_comm _ _ (links (graphData st))).
Qed.

Lemma state_eta (st : GraphState) :
  withGraphData {| nodes := nodes (graphData st); links := links (graphData st) |} st = st.
Proof. by destruct st as [[] ? ? ? ? ? ? ? ?]. Qed.

(** [addNode] followed by [removeNode] of the new node's id gives the
    state back when the id was fresh: no node carried it and no link
    touched it. *)
Theorem removeNode_addNode_fresh (node : GraphNode) (st : GraphState) :
  (∀ m, m ∈ nodes (graphData st) → node_id m ≠ node_id node) →
  (∀ l, l ∈ links (graphData st) → ¬ incident (node_id node) l) →
  removeNode (node_id node) (addNode node st) = st.
Proof.
  intros Hn Hl. unfold removeNode, addNode, withGraphData. cbn.
  rewrite List.filter_app. cbn. rewrite String.eqb_refl. cbn.
  rewrite app_nil_r.
  rewrite !List_filter_all.
  - apply state_eta.
  - intros l Hin. apply removeNode_keeps_link. exact (Hl l Hin).
  - intros m Hin. apply eqb_false_ne. by apply Hn.
Qed.

Lemma removeNode_addNode_fresh_witness :
  removeNode "c" (addNode (plainNode "c" "Cy" location)
    (stateOf (mkGraph [plainNode "a" "Ann" person; plainNode "b" "Bob" person]
                      [plainLink (EndId "a") (EndId "b")]))) =
  stateOf (mkGraph [plainNode "a" "Ann" person; plainNode "b" "Bob" person]
                   [plainLink (EndId "a") (EndId "b")]).
Proof.
  apply (removeNode_addNode_fresh (plainNode "c" "Cy" location)).
  - intros m Hm. cbn in Hm.
    apply elem_of_cons in Hm as [->|Hm]; [discriminate|].
    apply list_elem_of_singleton in Hm as ->. discriminate.
  - intros l Hl. cbn in Hl. apply list_elem_of_singleton in Hl as ->.
    intros [H|H]; discriminate.
Defined.

Lemma getNeighbors_isolated (nodeId : string) (st : GraphState) :
  (∀ l, l ∈ links (graphData st) → ¬ incident nodeId l) →
  getNeighbors nodeId st = mkNeighbors ∅ ∅.
Proof.
  intros Hnone.
  assert (Hn : nbr_nodes (getNeighbors nodeId st) = ∅).
  { apply elem_of_equiv_empty_L. intros b Hb.
    apply getNeighbors_nodes in Hb as (l & Hl & Hc).
    apply (Hnone l Hl). destruct Hc as [[? _]|(_ & ? & _)]; [by left|by right]. }
  assert (Hk : nbr_links (getNeighbors nodeId st) = ∅).
  { apply elem_of_equiv_empty_L. intros k Hk.
    apply getNeighbors_links in Hk as (l & Hl & Hi & _).
    by apply (Hnone l Hl). }
  destruct (getNeighbors nodeId st). cbn in *. congruence.
Qed.

(** After [removeNode nodeId] the node has no neighbourhood left:
    [getNeighbors nodeId] returns two empty sets, and [nodeId] is among
    the neighbours of no node. *)
Theorem removeNode_clears_neighbourhood (nodeId : string) (st : GraphState) :
  getNeighbors nodeId (removeNode nodeId st) = mkNeighbors ∅ ∅ ∧
  ∀ other, nodeId ∉ nbr_nodes (getNeighbors other (removeNode nodeId st)).
Proof.
  assert (Hgone : ∀ l, l ∈ links (graphData (removeNode nodeId st)) →
                       ¬ incident nodeId l).
  { intros l Hl. cbn in Hl.
    apply list_elem_of_In, filter_In in Hl as [_ Hl].
    by apply removeNode_keeps_link in Hl. }
  split.
  - by apply getNeighbors_isolated.
  - intros other Hin.
    apply getNeighbors_nodes in Hin as (l & Hl & Hc).
    apply (Hgone l Hl). destruct Hc as [[_ ?]|(_ & _ & ?)]; [by right|by left].
Qed.

(** [getNeighbors] returns two empty sets exactly when no link of the
    graph has the node as an endpoint. *)
Theorem getNeighbors_empty_iff (nodeId : string) (st : GraphState) :
  getNeighbors nodeId st = mkNeighbors ∅ ∅ ↔
  ∀ l, l ∈ links (graphData st) → ¬ incident nodeId l.
Proof.
  split.
  - intros Hempty l Hl Hinc.
    assert (Hk : linkIdOf (endpointId (source l)) (endpointId (target l))
                 ∈ nbr_links (getNeighbors nodeId st)).
    { apply getNeighbors_links. by exists l. }
    rewrite Hempty in Hk. cbn in Hk. by apply not_elem_of_empty in Hk.
  - apply getNeighbors_isolated.
Qed.

Lemma getNeighbors_empty_iff_witness :
  getNeighbors "c"
    (stateOf (mkGraph [plainNode "c" "Cy" person]
                      [plainLink (EndId "a") (EndId "b")])) = mkNeighbors ∅ ∅.
Proof.
  apply (getNeighbors_empty_iff "c"
           (stateOf (mkGraph [plainNode "c" "Cy" person]
                             [plainLink (EndId "a") (EndId "b")]))).
  intros l Hl. cbn in Hl. apply list_elem_of_singleton in Hl as ->.
  intros [H|H]; discriminate.
Defined.

(** [addLink] followed by [removeLink] of the new link's pair gives the
    state back when no link joined that ordered pair before. *)
Theorem removeLink_addLink_fresh (link : GraphLink) (st : GraphState) :
  (∀ l, l ∈ links (graphData st) → linkPair l ≠ linkPair link) →
  removeLink (endpointId (source link)) (endpointId (target link))
             (addLink link st) = st.
Proof.
  intros Hfresh. unfold removeLink, addLink, withGraphData. cbn.
  rewrite List.filter_app. cbn. rewrite !String.eqb_refl. cbn.
  rewrite app_nil_r, List_filter_all.
  - apply state_eta.
  - intros l Hl. apply removeLink_keeps_link. exact (Hfresh l Hl).
Qed.

Lemma removeLink_addLink_fresh_witness :
  removeLink "b" "a"
    (addLink (plainLink (EndRef (plainNode "b" "Bob" person)) (EndId "a"))
       (stateOf (mkGraph [] [plainLink (EndId "a") (EndId "b")]))) =
  stateOf (mkGraph [] [plainLink (EndId "a") (EndId "b")]).
Proof.
  apply (removeLink_addLink_fresh
           (plainLink (EndRef (plainNode "b" "Bob" person)) (EndId "a"))).
  intros l Hl. cbn in Hl. apply list_elem_of_singleton in Hl as ->.
  discriminate.
Defined.

Lemma visitLink_pair (nodeId : string) (acc : Neighbors) (l1 l2 : GraphLink) :
  linkPair l1 = linkPair l2 → visitLink nodeId acc l1 = visitLink nodeId acc l2.
Proof.
  unfold linkPair, visitLink. intros [= Hs Ht]. by rewrite Hs, Ht.
Qed.

Lemma fold_visitLink_pairs (nodeId : string) (ls1 : list GraphLink) :
  ∀ ls2 acc,
    List.map linkPair ls1 = List.map linkPair ls2 →
    fold_left (visitLink nodeId) ls1 acc = fold_left (visitLink nodeId) ls2 acc.
Proof.
  induction ls1 as [|l1 ls1 IH]; intros [|l2 ls2] acc Heq; try discriminate.
  - reflexivity.
  - cbn [List.map] in Heq.
    assert (H1 : linkPair l1 = linkPair l2) by congruence.
    assert (Hrest : List.map linkPair ls1 = List.map linkPair ls2) by congruence.
    cbn [fold_left].
    rewrite (visitLink_pair nodeId acc l1 l2 H1). by apply IH.
Qed.

(** [getNeighbors] sees the links only through their normalised pairs:
    two graphs whose links have the same pairs in the same order, whether
    an endpoint is held as an id or as a node object, give the same
    result. *)
Theorem getNeighbors_representation (nodeId : string) (st1 st2 : GraphState) :
  List.map linkPair (links (graphData st1)) =
  List.map linkPair (links (graphData st2)) →
  getNeighbors nodeId st1 = getNeighbors nodeId st2.
Proof. intros H. unfold getNeighbors. by apply fold_visitLink_pairs. Qed.

Lemma getNeighbors_representation_witness :
  getNeighbors "a"
    (stateOf (mkGraph [] [plainLink (EndId "a") (EndId "b")])) =
  getNeighbors "a"
    (stateOf (mkGraph [] [plainLink (EndRef (plainNode "a" "Ann" person))
                                    (EndRef (plainNode "b" "Bob" event))])).
Proof.
  apply (getNeighbors_representation "a"
           (stateOf (mkGraph [] [plainLink (EndId "a") (EndId "b")]))
           (stateOf (mkGraph [] [plainLink (EndRef (plainNode "a" "Ann" person))
                                           (EndRef (plainNode "b" "Bob" event))]))).
  reflexivity.
Defined.

(** Adding a link only adds to a neighbourhood: the result for the longer
    link list is the old result with the new link visited last, so both
    sets grow, and they stay the same when the link does not touch the
    node. *)
Theorem getNeighbors_addLink (nodeId : string) (link : GraphLink) (st : GraphState) :
  getNeighbors nodeId (addLink link st) =
    visitLink nodeId (getNeighbors nodeId st) link ∧
  nbr_nodes (getNeighbors nodeId st) ⊆ nbr_nodes (getNeighbors nodeId (addLink link st)) ∧
  nbr_links (getNeighbors nodeId st) ⊆ nbr_links (getNeighbors nodeId (addLink link st)) ∧
  (¬ incident nodeId link →
   getNeighbors nodeId (addLink link st) = getNeighbors nodeId st).
Proof.
  assert (Hstep : getNeighbors nodeId (addLink link st) =
                  visitLink nodeId (getNeighbors nodeId st) link).
  { unfold getNeighbors, addLink. cbn. by rewrite fold_left_app. }
  split; [exact Hstep|]. rewrite Hstep.
  split; [|split].
  - intros b Hb. apply visitLink_nodes. by left.
  - intros k Hk. apply visitLink_links. by left.
  - unfold incident, visitLink. intros Hni.
    destruct (String.eqb_spec (endpointId (source link)) nodeId) as [Hs|Hs];
      [destruct Hni; by left|].
    destruct (String.eqb_spec (endpointId (target link)) nodeId) as [Ht|Ht];
      [destruct Hni; by right|].
    reflexivity.
Qed.

Lemma getNeighbors_addLink_witness :
  getNeighbors "a"
    (addLink (plainLink (EndId "b") (EndId "c"))
       (stateOf (mkGraph [] [plainLink (EndId "a") (EndId "b")]))) =
  getNeighbors "a" (stateOf (mkGraph [] [plainLink (EndId "a") (EndId "b")])).
Proof.
  apply (getNeighbors_addLink "a" (plainLink (EndId "b") (EndId "c"))
           (stateOf (mkGraph [] [plainLink (EndId "a") (EndId "b")]))).
  intros [H|H]; discriminate.
Defined.

Lemma fold_visitLink_filter (nodeId : string) (f : GraphLink → bool)
    (ls : list GraphLink) :
  (∀ l, f l = false → ¬ incident nodeId l) →
  ∀ acc, fold_left (visitLink nodeId) (List.filter f ls) acc =
         fold_left (visitLink nodeId) ls acc.
Proof.
  intros Hf. induction ls as [|l ls IH]; intros acc; [reflexivity|].
  cbn. destruct (f l) eqn:Hfl; cbn [fold_left].
  - apply IH.
  - rewrite IH. f_equal.
    specialize (Hf l Hfl). unfold incident, visitLink in *.
    destruct (String.eqb_spec (endpointId (source l)) nodeId) as [Hs|Hs];
      [destruct Hf; by left|].
    destruct (String.eqb_spec (endpointId (target l)) nodeId) as [Ht|Ht];
      [destruct Hf; by right|].
    reflexivity.
Qed.

(** [removeLink sourceId targetId] changes the neighbourhood of no node
    other than its two endpoints. *)
Theorem removeLink_other_neighbours (sourceId targetId nodeId : string) (st : GraphState) :
  nodeId ≠ sourceId →
  nodeId ≠ targetId →
  getNeighbors nodeId (removeLink sourceId targetId st) = getNeighbors nodeId st.
Proof.
  intros Hs Ht. unfold getNeighbors, removeLink. cbn.
  apply fold_visitLink_filter. intros l Hl [Hi|Hi].
  - apply negb_false_iff, andb_true_iff in Hl as [Hl _].
    apply String.eqb_eq in Hl. congruence.
  - apply negb_false_iff, andb_true_iff in Hl as [_ Hl].
    apply String.eqb_eq in Hl. congruence.
Qed.

Lemma removeLink_other_neighbours_witness :
  getNeighbors "c"
    (removeLink "a" "b"
       (stateOf (mkGraph [] [plainLink (EndId "a") (EndId "b");
                             plainLink (EndId "b") (EndId "c")]))) =
  getNeighbors "c"
    (stateOf (mkGraph [] [plainLink (EndId "a") (EndId "b");
                          plainLink (EndId "b") (EndId "c")])).
Proof.
  apply (removeLink_other_neighbours "a" "b" "c"); discriminate.
Defined.

(** [updateNode] on an id no node carries is a silent no-op. *)
Theorem updateNode_absent_noop (nodeId : string) (u : PartialGraphNode) (st : GraphState) :
  (∀ m, m ∈ nodes (graphData st) → node_id m ≠ nodeId) →
  updateNode nodeId u st = st.
Proof.
  intros Habs. unfold updateNode.
  rewrite updateNode_absent by (by apply Forall_forall).
  apply state_eta.
Qed.

Lemma updateNode_absent_noop_witness :
  updateNode "ghost" (renameTo "z")
    (stateOf (mkGraph [plainNode "a" "Ann" person] [])) =
  stateOf (mkGraph [plainNode "a" "Ann" person] []).
Proof.
  apply (updateNode_absent_noop "ghost" (renameTo "z")).
  intros m Hm. cbn in Hm. apply list_elem_of_singleton in Hm as ->. discriminate.
Defined.

(** [updateNode] never adds or drops a node or a link; when the update
    carries no [id] field the sequence of node ids is unchanged as well,
    and every node with another id is left exactly as it was. *)
Theorem updateNode_shape (nodeId : string) (u : PartialGraphNode) (st : GraphState) :
  length (nodes (graphData (updateNode nodeId u st))) = length (nodes (graphData st)) ∧
  links (graphData (updateNode nodeId u st)) = links (graphData st) ∧
  (∀ i m, nodes (graphData st) !! i = Some m → node_id m ≠ nodeId →
          nodes (graphData (updateNode nodeId u st)) !! i = Some m) ∧
  (u_id u = None →
   List.map node_id (nodes (graphData (updateNode nodeId u st))) =
   List.map node_id (nodes (graphData st))).
Proof.
  cbn. split; [apply length_map|]. split; [reflexivity|]. split.
  - intros i m Hi Hne.
    change (((λ n, if String.eqb (node_id n) nodeId then spreadNode n u else n)
               <$> nodes (graphData st)) !! i = Some m).
    rewrite list_lookup_fmap, Hi. cbn.
    by destruct (String.eqb_spec (node_id m) nodeId).
  - intros Hu. rewrite List.map_map. apply List.map_ext. intros n.
    destruct (String.eqb (node_id n) nodeId); [|reflexivity].
    cbn. by rewrite Hu.
Qed.

Lemma updateNode_shape_witness :
  List.map node_id
    (nodes (graphData
       (updateNode "a"
          (mkPartial None (Some "Anna") None None None None None None None None None None)
          (stateOf (mkGraph [plainNode "a" "Ann" person; plainNode "b" "Bob" person] []))))) =
  ["a"; "b"].
Proof.
  apply (updateNode_shape "a"
           (mkPartial None (Some "Anna") None None None None None None None None None None)
           (stateOf (mkGraph [plainNode "a" "Ann" person; plainNode "b" "Bob" person] []))).
  reflexivity.
Defined.

(** ** Further properties of the derived filtered view *)

Lemma List_filter_sublist {A} (f : A → bool) (l : list A) :
  List.filter f l `sublist_of` l.
Proof.
  induction l as [|x l IH]; [constructor|].
  cbn. destruct (f x); [by apply sublist_skip | by apply sublist_cons].
Qed.

Lemma truthy_spec (s : string) : truthy s = true ↔ s ≠ "".
Proof. unfold truthy. apply eqb_false_ne. Qed.

(** The view never invents or reorders anything: its nodes and its links
    are subsequences of the snapshot's. *)
Theorem filteredData_sublist (st : GraphState) :
  nodes (filteredData st) `sublist_of` nodes (graphData st) ∧
  links (filteredData st) `sublist_of` links (graphData st).
Proof.
  unfold filteredData.
  destruct (filterByType st) as [ty|], (truthy (searchQuery st)); cbn;
    split; repeat (etrans; [apply List_filter_sublist|]); reflexivity.
Qed.

(** The nodes of the view are the nodes that pass every filter that is
    set: the two filters compose as an intersection on nodes. *)
Theorem filteredData_nodes_iff (st : GraphState) (n : GraphNode) :
  n ∈ nodes (filteredData st) ↔
  n ∈ nodes (graphData st) ∧
  (∀ ty, filterByType st = Some ty → node_type n = ty) ∧
  (searchQuery st ≠ "" → nameMatches (searchQuery st) n = true).
Proof.
  unfold filteredData.
  destruct (filterByType st) as [ty|];
    destruct (truthy (searchQuery st)) eqn:Hq; cbn;
    rewrite ?list_elem_of_In, ?filter_In, ?bool_decide_eq_true;
    (apply truthy_spec in Hq || apply not_true_iff_false in Hq;
     rewrite ?truthy_spec in Hq).
  - split.
    + intros [[Hin Hty] Hm]. split; [done|]. split; [|done].
      by intros ty' [= <-].
    + intros (Hin & Hty & Hm). split; [split|]; [done|by apply Hty|by apply Hm].
  - split.
    + intros [Hin Hty]. split; [done|]. split; [by intros ty' [= <-]|].
      intros Hne. by destruct Hq.
    + intros (Hin & Hty & _). split; [done|by apply Hty].
  - split.
    + intros [Hin Hm]. split; [done|]. split; [discriminate|done].
    + intros (Hin & _ & Hm). split; [done|by apply Hm].
  - split.
    + intros Hin. split; [done|]. split; [discriminate|].
      intros Hne. by destruct Hq.
    + by intros (Hin & _).
Qed.

Lemma filteredData_nodes_iff_witness :
  plainNode "1" "Alice" person ∈
    nodes (filteredData
      (setSearchQuery "LIC"
         (setFilterByType (Some person)
            (stateOf (mkGraph [plainNode "1" "Alice" person; plainNode "2" "Alicia" event] []))))).
Proof.
  apply (filteredData_nodes_iff
           (setSearchQuery "LIC"
              (setFilterByType (Some person)
                 (stateOf (mkGraph [plainNode "1" "Alice" person;
                                    plainNode "2" "Alicia" event] []))))
           (plainNode "1" "Alice" person)).
  split; [left|]. split.
  - intros ty [= <-]. reflexivity.
  - intros _. reflexivity.
Defined.

(** As soon as a filter is set, no link of the view dangles: both of its
    endpoints are ids of nodes of the view. (With no filter set the links
    pass unchecked.) *)
Theorem filteredData_links_closed (st : GraphState) (l : GraphLink) :
  filterByType st ≠ None ∨ searchQuery st ≠ "" →
  l ∈ links (filteredData st) →
  endpointId (source l) ∈ List.map node_id (nodes (filteredData st)) ∧
  endpointId (target l) ∈ List.map node_id (nodes (filteredData st)).
Proof.
  intros Hactive. unfold filteredData.
  destruct (filterByType st) as [ty|];
    destruct (truthy (searchQuery st)) eqn:Hq; cbn.
  - intros Hl. apply list_elem_of_In, filter_In in Hl as [_ Hl].
    by apply bothEndpointsIn_spec.
  - intros Hl. apply list_elem_of_In, filter_In in Hl as [_ Hl].
    by apply bothEndpointsIn_spec.
  - intros Hl. apply list_elem_of_In, filter_In in Hl as [_ Hl].
    by apply bothEndpointsIn_spec.
  - apply not_true_iff_false in Hq. rewrite truthy_spec in Hq.
    destruct Hactive as [H|H]; [done|]. by destruct Hq.
Qed.

Lemma filteredData_links_closed_witness :
  endpointId (source (plainLink (EndId "a") (EndRef (plainNode "b" "Bob" person))))
    ∈ List.map node_id
        (nodes (filteredData
           (setFilterByType (Some person)
              (stateOf (mkGraph [plainNode "a" "Ann" person; plainNode "b" "Bob" person;
                                 plainNode "e" "Expo" event]
                                [plainLink (EndId "a") (EndRef (plainNode "b" "Bob" person));
                                 plainLink (EndId "a") (EndId "e")]))))) ∧
  endpointId (target (plainLink (EndId "a") (EndRef (plainNode "b" "Bob" person))))
    ∈ List.map node_id
        (nodes (filteredData
           (setFilterByType (Some person)
              (stateOf (mkGraph [plainNode "a" "Ann" person; plainNode "b" "Bob" person;
                                 plainNode "e" "Expo" event]
                                [plainLink (EndId "a") (EndRef (plainNode "b" "Bob" person));
                                 plainLink (EndId "a") (EndId "e")]))))).
Proof.
  apply (filteredData_links_closed
           (setFilterByType (Some person)
              (stateOf (mkGraph [plainNode "a" "Ann" person; plainNode "b" "Bob" person;
                                 plainNode "e" "Expo" event]
                                [plainLink (EndId "a") (EndRef (plainNode "b" "Bob" person));
                                 plainLink (EndId "a") (EndId "e")])))).
  - left. discriminate.
  - vm_compute. left.
Defined.

(** Filtering is idempotent: feeding the view back in as the snapshot,
    with the same filters, gives the view again. *)
Theorem filteredData_idempotent (st : GraphState) :
  filteredData (setGraphData (filteredData st) st) = filteredData st.
Proof.
  unfold filteredData. cbn.
  destruct (filterByType st) as [ty|];
    destruct (truthy (searchQuery st)) eqn:Hq; cbn.
  - set (fty := fun node => bool_decide (node_type node = ty)).
    set (fq := nameMatches (searchQuery st)).
    set (nodes1 := List.filter fty (nodes (graphData st))).
    assert (Hn1 : List.filter fty (List.filter fq nodes1) = List.filter fq nodes1).
    { subst nodes1. by rewrite List_filter_comm, List_filter_idem. }
    rewrite Hn1, !List_filter_idem. reflexivity.
  - by rewrite !List_filter_idem.
  - by rewrite !List_filter_idem.
  - reflexivity.
Qed.






(** ** Hover highlighting *)

Lemma ltb_size_elem (X : gset string) (x : string) :
  x ∈ X → Nat.ltb 0 (size X) = true.
Proof.
  intros Hx. apply Nat.ltb_lt.
  assert (size X ≠ 0); [|lia].
  apply size_non_empty_iff. intros Hempty.
  apply (not_elem_of_empty (C:=gset string) x). by rewrite <- Hempty.
Qed.

Lemma incident_contributes (nodeId : string) (l : GraphLink) :
  incident nodeId l → ∃ b, contributesNode nodeId b l.
Proof.
  unfold incident, contributesNode. intros Hinc.
  destruct (decide (endpointId (source l) = nodeId)) as [Hs|Hs].
  - exists (endpointId (target l)). by left.
  - exists (endpointId (source l)). right. by destruct Hinc.
Qed.

Lemma handleNodeHover_some (st : GraphState) (n : GraphNode) :
  highlightedNodes (handleNodeHover (Some n) st) =
    nbr_nodes (getNeighbors (node_id n) st) ∧
  highlightedLinks (handleNodeHover (Some n) st) =
    nbr_links (getNeighbors (node_id n) st).
Proof. split; reflexivity. Qed.

(** Hovering a node draws every link of the graph that touches it at
    the highlighted opacity 0.8. *)
Theorem hover_highlights_incident_links
    (st : GraphState) (n : GraphNode) (l : GraphLink) :
  l ∈ links (graphData st) →
  incident (node_id n) l →
  linkOpacity (handleNodeHover (Some n) st) l = 0.8%float.
Proof.
  intros Hl Hinc. unfold linkOpacity.
  destruct (handleNodeHover_some st n) as [_ ->].
  assert (Hin : linkIdOf (endpointId (source l)) (endpointId (target l))
                ∈ nbr_links (getNeighbors (node_id n) st)).
  { apply getNeighbors_links. by exists l. }
  rewrite (ltb_size_elem _ _ Hin). by rewrite (bool_decide_eq_true_2 _ Hin).
Qed.

Lemma hover_highlights_incident_links_witness :
  linkOpacity
    (handleNodeHover (Some (plainNode "b" "Bob" person))
       (stateOf (mkGraph [plainNode "a" "Ann" person; plainNode "b" "Bob" person]
                         [plainLink (EndId "a") (EndId "b")])))
    (plainLink (EndId "a") (EndId "b")) = 0.8%float.
Proof.
  apply (hover_highlights_incident_links
           (stateOf (mkGraph [plainNode "a" "Ann" person; plainNode "b" "Bob" person]
                             [plainLink (EndId "a") (EndId "b")]))
           (plainNode "b" "Bob" person)
           (plainLink (EndId "a") (EndId "b"))).
  - left.
  - right. reflexivity.
Defined.

(** While a node with at least one link is hovered, its neighbours are
    drawn at opacity 1 and every other node at 0.3; the hovered node is
    itself among the dimmed ones unless it carries a self-link. *)
Theorem hover_node_opacity (st : GraphState) (n : GraphNode) :
  (∃ l, l ∈ links (graphData st) ∧ incident (node_id n) l) →
  (∀ m, node_id m ∈ nbr_nodes (getNeighbors (node_id n) st) →
        nodeOpacity (handleNodeHover (Some n) st) m = 1%float) ∧
  (∀ m, node_id m ∉ nbr_nodes (getNeighbors (node_id n) st) →
        nodeOpacity (handleNodeHover (Some n) st) m = 0.3%float) ∧
  ((∀ l, l ∈ links (graphData st) →
         ¬ (endpointId (source l) = node_id n ∧ endpointId (target l) = node_id n)) →
   nodeOpacity (handleNodeHover (Some n) st) n = 0.3%float).
Proof.
  intros (l & Hl & Hinc).
  destruct (incident_contributes _ _ Hinc) as [b Hb].
  assert (Hsize : Nat.ltb 0 (size (nbr_nodes (getNeighbors (node_id n) st))) = true).
  { apply (ltb_size_elem _ b). apply getNeighbors_nodes. by exists l. }
  assert (Hdim : ∀ m, node_id m ∉ nbr_nodes (getNeighbors (node_id n) st) →
                      nodeOpacity (handleNodeHover (Some n) st) m = 0.3%float).
  { intros m Hm. unfold nodeOpacity.
    destruct (handleNodeHover_some st n) as [-> _].
    rewrite Hsize. by rewrite (bool_decide_eq_false_2 _ Hm). }
  split; [|split].
  - intros m Hm. unfold nodeOpacity.
    destruct (handleNodeHover_some st n) as [-> _].
    rewrite Hsize. by rewrite (bool_decide_eq_true_2 _ Hm).
  - exact Hdim.
  - intros Hnoself. apply Hdim. intros Hin.
    apply getNeighbors_nodes in Hin as (l' & Hl' & [[Hs Ht]|(Hs & _ & Hs')]).
    + by apply (Hnoself l' Hl').
    + contradiction.
Qed.

Lemma hover_node_opacity_witness :
  nodeOpacity
    (handleNodeHover (Some (plainNode "b" "Bob" person))
       (stateOf (mkGraph [plainNode "a" "Ann" person; plainNode "b" "Bob" person]
                         [plainLink (EndId "a") (EndId "b")])))
    (plainNode "b" "Bob" person) = 0.3%float.
Proof.
  assert (Hex : ∃ l, l ∈ [plainLink (EndId "a") (EndId "b")] ∧ incident "b" l).
  { exists (plainLink (EndId "a") (EndId "b")). split; [left|right; reflexivity]. }
  apply (hover_node_opacity
           (stateOf (mkGraph [plainNode "a" "Ann" person; plainNode "b" "Bob" person]
                             [plainLink (EndId "a") (EndId "b")]))
           (plainNode "b" "Bob" person) Hex).
  intros l Hl [Hs _]. cbn in Hl.
  apply list_elem_of_singleton in Hl as ->. discriminate.
Defined.

(** When the pointer leaves the nodes, or rests on a node without links,
    both highlight sets are empty: every node is drawn at opacity 1 and
    every link at 0.5; the graph, the selection and the filters are not
    touched by hovering. *)
Theorem hover_nothing_dimmed (st : GraphState) (node : option GraphNode) :
  (∀ n, node = Some n →
        ∀ l, l ∈ links (graphData st) → ¬ incident (node_id n) l) →
  let st' := handleNodeHover node st in
  highlightedNodes st' = ∅ ∧
  highlightedLinks st' = ∅ ∧
  (∀ m, nodeOpacity st' m = 1%float) ∧
  (∀ l, linkOpacity st' l = 0.5%float) ∧
  hoveredNode st' = node ∧
  graphData st' = graphData st ∧
  selectedNode st' = selectedNode st ∧
  filterByType st' = filterByType st ∧
  searchQuery st' = searchQuery st.
Proof.
  intros Hiso st'.
  assert (Hsets : highlightedNodes st' = ∅ ∧ highlightedLinks st' = ∅).
  { subst st'. destruct node as [n|]; [|done].
    destruct (handleNodeHover_some st n) as [-> ->].
    assert (He : getNeighbors (node_id n) st = mkNeighbors ∅ ∅).
    { apply getNeighbors_isolated. by apply Hiso. }
    by rewrite He. }
  destruct Hsets as [Hn Hk].
  split; [done|]. split; [done|].
  split; [|split].
  - intros m. unfold nodeOpacity. by rewrite Hn, size_empty.
  - intros l. unfold linkOpacity. by rewrite Hk, size_empty.
  - subst st'. by destruct node.
Qed.

Lemma hover_nothing_dimmed_witness :
  nodeOpacity
    (handleNodeHover (Some (plainNode "c" "Cy" person))
       (stateOf (mkGraph [plainNode "a" "Ann" person; plainNode "c" "Cy" person]
                         [plainLink (EndId "a") (EndId "b")])))
    (plainNode "a" "Ann" person) = 1%float.
Proof.
  apply (hover_nothing_dimmed
           (stateOf (mkGraph [plainNode "a" "Ann" person; plainNode "c" "Cy" person]
                             [plainLink (EndId "a") (EndId "b")]))
           (Some (plainNode "c" "Cy" person))).
  intros n [= <-] l Hl. cbn in Hl.
  apply list_elem_of_singleton in Hl as ->.
  intros [H|H]; discriminate.
Defined.

(** ** What the gateway hands to the store *)

Lemma map_has_spec (k : string) (m : NodeMap) :
  map_has k m = true ↔ k ∈ List.map fst m.
Proof.
  unfold map_has. rewrite existsb_exists, list_elem_of_In, in_map_iff.
  split.
  - intros ([k' v] & Hin & Heq). apply String.eqb_eq in Heq. by exists (k', v).
  - intros ([k' v] & Heq & Hin). exists (k', v). split; [done|].
    by apply String.eqb_eq.
Qed.

Lemma ingestNode_unfold (d : DbNode) (m : NodeMap) :
  ingestNode (Some d) m =
  if map_has (db_name d) m then m else m ++ [(db_name d, nodeOfDb d)].
Proof. unfold ingestNode, map_set. by destruct (map_has (db_name d) m). Qed.

Lemma ingestNode_keys (x : option DbNode) (m : NodeMap) (i : string) :
  i ∈ List.map fst (ingestNode x m) ↔
  i ∈ List.map fst m ∨ ∃ d, x = Some d ∧ db_name d = i.
Proof.
  destruct x as [d|].
  - rewrite ingestNode_unfold.
    destruct (map_has (db_name d) m) eqn:Hhas.
    + split; [by left|]. intros [H|(d' & [= <-] & <-)]; [done|].
      by apply map_has_spec.
    + rewrite List.map_app, elem_of_app. cbn. rewrite list_elem_of_singleton.
      split.
      * intros [H| ->]; [by left|right; by exists d].
      * intros [H|(d' & [= <-] & <-)]; [by left|by right].
  - cbn. split; [by left|]. intros [H|(d & [=] & _)]. done.
Qed.

Lemma ingestNode_entries (x : option DbNode) (m : NodeMap) (k : string) (v : GraphNode) :
  (k, v) ∈ ingestNode x m →
  (k, v) ∈ m ∨ ∃ d, k = db_name d ∧ v = nodeOfDb d.
Proof.
  destruct x as [d|]; [|by left].
  rewrite ingestNode_unfold. destruct (map_has (db_name d) m); [by left|].
  rewrite elem_of_app, list_elem_of_singleton.
  intros [H|[= -> ->]]; [by left|right; by exists d].
Qed.

Lemma ingestNode_nodup (x : option DbNode) (m : NodeMap) :
  NoDup (List.map fst m) → NoDup (List.map fst (ingestNode x m)).
Proof.
  intros Hnd. destruct x as [d|]; [|done].
  rewrite ingestNode_unfold. destruct (map_has (db_name d) m) eqn:Hhas; [done|].
  rewrite List.map_app. cbn. apply NoDup_app. split; [done|]. split.
  - intros i Hi Hi'. apply list_elem_of_singleton in Hi' as ->.
    apply map_has_spec in Hi. congruence.
  - apply NoDup_singleton.
Qed.

Lemma ingestRecord_nodes (s : Ingest) (record : DbRecord) :
  in_nodes (ingestRecord s record) =
  ingestNode (rec_m record) (ingestNode (rec_n record) (in_nodes s)).
Proof.
  unfold ingestRecord, ingestLink. cbn.
  destruct (rec_r record), (rec_n record), (rec_m record); try reflexivity.
  by destruct (_ && _).
Qed.

Lemma ingestRecord_keys_mono (s : Ingest) (record : DbRecord) (i : string) :
  i ∈ List.map fst (in_nodes s) →
  i ∈ List.map fst (in_nodes (ingestRecord s record)).
Proof.
  intros Hi. rewrite ingestRecord_nodes, !ingestNode_keys. by left; left.
Qed.

Lemma ingestRecord_links (s : Ingest) (record : DbRecord) (l : GraphLink) :
  l ∈ in_links (ingestRecord s record) →
  l ∈ in_links s ∨
  ∃ n m r, rec_n record = Some n ∧ rec_m record = Some m ∧ rec_r record = Some r ∧
           l = {| source := EndId (db_name n); target := EndId (db_name m);
                  relationship := relationshipOf r;
                  strength := Some 1%float; link_color := None |}.
Proof.
  unfold ingestRecord, ingestLink. cbn.
  destruct (rec_r record) as [r|]; [|by left].
  destruct (rec_n record) as [n|]; [|by left].
  destruct (rec_m record) as [m|]; [|by left].
  destruct (_ && _); cbn; [|by left].
  rewrite elem_of_app, list_elem_of_singleton.
  intros [H| ->]; [by left|]. right. by exists n, m, r.
Qed.

Lemma gatewayInv_init : gatewayInv (mkIngest [] [] ∅).
Proof.
  split; cbn.
  - constructor.
  - intros k v H. by apply not_elem_of_nil in H.
  - intros l H. by apply not_elem_of_nil in H.
Qed.

Lemma ingestRecord_gatewayInv (s : Ingest) (record : DbRecord) :
  gatewayInv s → gatewayInv (ingestRecord s record).
Proof.
  intros [Hkeys Hnodes Hlinks]. split.
  - rewrite ingestRecord_nodes. by do 2 apply ingestNode_nodup.
  - intros k v. rewrite ingestRecord_nodes. intros H.
    apply ingestNode_entries in H as [H|H]; [|done].
    apply ingestNode_entries in H as [H|H]; [|done].
    by apply Hnodes.
  - intros l Hl. apply ingestRecord_links in Hl as [Hl|(n & m & r & Hn & Hm & Hr & ->)].
    + destruct (Hlinks l Hl) as (a & b & r & -> & Ha & Hb).
      exists a, b, r. split; [done|].
      split; by apply ingestRecord_keys_mono.
    + exists (db_name n), (db_name m), r. split; [done|].
      rewrite ingestRecord_nodes, !ingestNode_keys. split.
      * left. right. by exists n.
      * right. by exists m.
Qed.

Lemma fold_ingestRecord_gatewayInv (results : list DbRecord) :
  ∀ s, gatewayInv s → gatewayInv (fold_left ingestRecord results s).
Proof.
  induction results as [|record results IH]; intros s Hs; [done|].
  cbn [fold_left]. by apply IH, ingestRecord_gatewayInv.
Qed.

Lemma getGraph_inv (response : Settled (option (list DbRecord))) (g : GraphData) :
  getGraph response = Resolved g →
  ∃ s, gatewayInv s ∧ nodes g = map_values (in_nodes s) ∧ links g = in_links s.
Proof.
  destruct response as [[rs|]|reason]; cbn; intros [= <-].
  - exists (ingestAll rs). split; [|done].
    apply fold_ingestRecord_gatewayInv, gatewayInv_init.
  - exists (mkIngest [] [] ∅). split; [apply gatewayInv_init|done].
  - exists (mkIngest [] [] ∅). split; [apply gatewayInv_init|done].
Qed.

Lemma gatewayInv_ids (s : Ingest) :
  gatewayInv s →
  List.map node_id (map_values (in_nodes s)) = List.map fst (in_nodes s).
Proof.
  intros [_ Hnodes _]. unfold map_values. rewrite List.map_map.
  induction (in_nodes s) as [|[k v] m IH]; [reflexivity|].
  cbn. rewrite IH.
  - destruct (Hnodes k v) as (d & -> & ->); [left|reflexivity].
  - intros k' v' H. apply Hnodes. by right.
Qed.

(** The graph [getGraph] returns has pairwise different node ids, however
    often the rows repeat a name. *)
Theorem getGraph_node_ids_unique
    (response : Settled (option (list DbRecord))) (g : GraphData) :
  getGraph response = Resolved g →
  NoDup (List.map node_id (nodes g)).
Proof.
  intros Hg. destruct (getGraph_inv _ _ Hg) as (s & Hinv & -> & _).
  rewrite gatewayInv_ids by done. apply Hinv.
Qed.

Lemma getGraph_node_ids_unique_witness :
  NoDup (List.map node_id (nodes sampleGraph)).
Proof.
  exact (getGraph_node_ids_unique (Resolved (Some sampleResults)) sampleGraph eq_refl).
Defined.

(** No link [getGraph] returns dangles: both endpoints are id strings
    that are ids of returned nodes. *)
Theorem getGraph_links_closed
    (response : Settled (option (list DbRecord))) (g : GraphData) (l : GraphLink) :
  getGraph response = Resolved g →
  l ∈ links g →
  ∃ a b, source l = EndId a ∧ target l = EndId b ∧
         a ∈ List.map node_id (nodes g) ∧ b ∈ List.map node_id (nodes g).
Proof.
  intros Hg. destruct (getGraph_inv _ _ Hg) as (s & Hinv & -> & ->).
  intros Hl. rewrite gatewayInv_ids by done.
  destruct (gi_links s Hinv l Hl) as (a & b & r & -> & Ha & Hb).
  by exists a, b.
Qed.

Lemma getGraph_links_closed_witness :
  ∃ a b, source (knows "Bob" "Cy") = EndId a ∧ target (knows "Bob" "Cy") = EndId b ∧
         a ∈ List.map node_id (nodes sampleGraph) ∧
         b ∈ List.map node_id (nodes sampleGraph).
Proof.
  assert (Hl : knows "Bob" "Cy" ∈ links sampleGraph) by (vm_compute; right; left).
  exact (getGraph_links_closed (Resolved (Some sampleResults)) sampleGraph
           (knows "Bob" "Cy") eq_refl Hl).
Defined.




Lemma fold_ingestRecord_keys (results : list DbRecord) (i : string) :
  ∀ s,
    i ∈ List.map fst (in_nodes (fold_left ingestRecord results s)) ↔
    i ∈ List.map fst (in_nodes s) ∨
    ∃ record, record ∈ results ∧ mentions record i.
Proof.
  induction results as [|record results IH]; intros s; cbn [fold_left].
  - split; [by left|]. intros [H|(r & Hr & _)]; [done|].
    by apply not_elem_of_nil in Hr.
  - rewrite IH, ingestRecord_nodes, !ingestNode_keys. unfold mentions. split.
    + intros [[[H|H]|H]|(r & Hr & H)].
      * by left.
      * right. exists record. split; [left|by left].
      * right. exists record. split; [left|by right].
      * right. exists r. split; [by right|done].
    + intros [H|(r & Hr & H)]; [by left; left; left|].
      apply elem_of_cons in Hr as [->|Hr].
      * destruct H as [H|H]; [by left; left; right|by left; right].
      * right. by exists r.
Qed.

(** The nodes [getGraph] returns are the names the rows mention, as [n]
    or as [m], each once. *)
Theorem getGraph_node_ids_iff (results : list DbRecord) (g : GraphData) (i : string) :
  getGraph (Resolved (Some results)) = Resolved g →
  (i ∈ List.map node_id (nodes g) ↔
   ∃ record, record ∈ results ∧ mentions record i).
Proof.
  intros [= <-]. cbn [nodes].
  rewrite gatewayInv_ids
    by apply fold_ingestRecord_gatewayInv, gatewayInv_init.
  unfold ingestAll. rewrite fold_ingestRecord_keys. cbn. split.
  - intros [H|H]; [by apply not_elem_of_nil in H|done].
  - by right.
Qed.

Lemma getGraph_node_ids_iff_witness :
  "Cy" ∈ List.map node_id (nodes sampleGraph) ↔
  ∃ record, record ∈ sampleResults ∧ mentions record "Cy".
Proof.
  exact (getGraph_node_ids_iff sampleResults sampleGraph "Cy" eq_refl).
Defined.

(** After a load that went through, every neighbour [getNeighbors]
    reports is the id of a node of the graph. *)
Theorem loadFromGateway_neighbours_exist
    (results : option (list DbRecord)) (st : GraphState) (nodeId b : string) :
  b ∈ nbr_nodes (getNeighbors nodeId (loadFromGateway (Resolved results) st)) →
  b ∈ List.map node_id (nodes (graphData (loadFromGateway (Resolved results) st))).
Proof.
  destruct (getGraph_always_resolves (Resolved results)) as [g Hg].
  assert (Hgd : graphData (loadFromGateway (Resolved results) st) = g).
  { unfold loadFromGateway. by rewrite Hg. }
  rewrite getNeighbors_nodes, Hgd. intros (l & Hl & Hc).
  destruct (getGraph_inv _ _ Hg) as (s & Hinv & Hns & Hls).
  rewrite Hls in Hl. rewrite Hns, gatewayInv_ids by done.
  destruct (gi_links s Hinv l Hl) as (x & y & r & -> & Hx & Hy).
  unfold contributesNode in Hc. cbn in Hc.
  destruct Hc as [[_ <-]|(_ & _ & <-)]; done.
Qed.

Lemma loadFromGateway_neighbours_exist_witness :
  "Ann" ∈ List.map node_id
    (nodes (graphData (loadFromGateway (Resolved (Some sampleResults)) initialState))).
Proof.
  apply (loadFromGateway_neighbours_exist (Some sampleResults) initialState "Bob" "Ann").
  apply (bool_decide_unpack _). vm_compute. exact I.
Defined.

(** [loadGraphData] touches three fields only: whichever way the awaited
    promise settles, the selection, the hover, the highlight sets and the
    filters are what they were, and an [error] recorded earlier is still
    there after a load that went through. *)
Theorem loadGraphData_frame (awaited : Settled GraphData) (st : GraphState) :
  selectedNode (loadGraphData awaited st) = selectedNode st ∧
  hoveredNode (loadGraphData awaited st) = hoveredNode st ∧
  highlightedNodes (loadGraphData awaited st) = highlightedNodes st ∧
  highlightedLinks (loadGraphData awaited st) = highlightedLinks st ∧
  filterByType (loadGraphData awaited st) = filterByType st ∧
  searchQuery (loadGraphData awaited st) = searchQuery st ∧
  (∀ data, awaited = Resolved data →
           error (loadGraphData awaited st) = error st).
Proof.
  destruct awaited; repeat split; intros; congruence.
Qed.

(** An error recorded by a failed load is never cleared by the loader:
    it is still in place after any number of further loads, whether they
    go through or fail. *)
Theorem loadGraphData_error_sticky
    (later : list (Settled GraphData)) (reason : string) (st : GraphState) :
  error (fold_left (fun s awaited => loadGraphData awaited s) later
                   (loadGraphData (Rejected reason) st))
  = Some "Failed to load graph data".
Proof.
  assert (Hkeep : ∀ awaited s,
            error s = Some "Failed to load graph data" →
            error (loadGraphData awaited s) = Some "Failed to load graph data").
  { intros [data|r] s Hs; [exact Hs|reflexivity]. }
  assert (Hfold : ∀ s, error s = Some "Failed to load graph data" →
            error (fold_left (fun s awaited => loadGraphData awaited s) later s)
            = Some "Failed to load graph data").
  { induction later as [|a later IH]; intros s Hs; [exact Hs|].
    cbn [fold_left]. by apply IH, Hkeep. }
  by apply Hfold.
Qed.

(** ** Relationships the gateway keeps *)

Lemma dashFree_cons (x : ascii) (a : string) :
  dashFree (String x a) → x ≠ "-"%char ∧ dashFree a.
Proof.
  unfold dashFree. cbn [includes]. intros H.
  apply orb_false_iff in H as [Hp Hi]. split; [|exact Hi].
  intros ->. cbn in Hp. by destruct a.
Qed.

(** The identity string determines the pair when the names before the
    separator contain no ["-"]. *)
Lemma linkIdOf_inj (a b c d : string) :
  dashFree a → dashFree c →
  linkIdOf a b = linkIdOf c d → a = c ∧ b = d.
Proof.
  unfold linkIdOf. revert c.
  induction a as [|x a IH]; intros [|y c] Ha Hc Heq; cbn in Heq.
  - by injection Heq.
  - injection Heq as Hy _. apply dashFree_cons in Hc as [Hne _]. congruence.
  - injection Heq as Hx _. apply dashFree_cons in Ha as [Hne _]. congruence.
  - injection Heq as -> Heq.
    apply dashFree_cons in Ha as [_ Ha]. apply dashFree_cons in Hc as [_ Hc].
    destruct (IH c Ha Hc Heq) as [-> ->]. done.
Qed.

Lemma ingestRecord_links_mono (s : Ingest) (record : DbRecord) (l : GraphLink) :
  l ∈ in_links s → l ∈ in_links (ingestRecord s record).
Proof.
  intros Hl. unfold ingestRecord, ingestLink. cbn.
  destruct (rec_r record), (rec_n record), (rec_m record); try done.
  destruct (_ && _); cbn; [|done]. apply elem_of_app. by left.
Qed.

Lemma fold_ingestRecord_links_mono (results : list DbRecord) (l : GraphLink) :
  ∀ s, l ∈ in_links s → l ∈ in_links (fold_left ingestRecord results s).
Proof.
  induction results as [|record results IH]; intros s Hl; [done|].
  cbn [fold_left]. by apply IH, ingestRecord_links_mono.
Qed.

(** [linkSet] holds nothing but identities of emitted links, and the
    emitted links start at names without ["-"]. *)
Lemma ingestRecord_exact (s : Ingest) (record : DbRecord) :
  (∀ name, mentions record name → dashFree name) →
  (∀ k, k ∈ in_linkSet s →
        ∃ l, l ∈ in_links s ∧
             k = linkIdOf (endpointId (source l)) (endpointId (target l))) ∧
  (∀ l, l ∈ in_links s → dashFree (endpointId (source l))) →
  (∀ k, k ∈ in_linkSet (ingestRecord s record) →
        ∃ l, l ∈ in_links (ingestRecord s record) ∧
             k = linkIdOf (endpointId (source l)) (endpointId (target l))) ∧
  (∀ l, l ∈ in_links (ingestRecord s record) → dashFree (endpointId (source l))).
Proof.
  intros Hdash [Hexact Hfree]. unfold ingestRecord, ingestLink, mentions in *. cbn.
  destruct (rec_r record) as [r|]; [|by split].
  destruct (rec_n record) as [n|]; [|by split].
  destruct (rec_m record) as [m|]; [|by split].
  destruct (_ && _); cbn; [|by split].
  split.
  - intros k Hk. apply elem_of_union in Hk as [Hk|Hk].
    + destruct (Hexact k Hk) as (l & Hl & ->). exists l.
      split; [apply elem_of_app; by left|done].
    + apply elem_of_singleton in Hk as ->. eexists.
      split; [apply elem_of_app; right; left|done].
  - intros l Hl. apply elem_of_app in Hl as [Hl|Hl]; [by apply Hfree|].
    apply list_elem_of_singleton in Hl as ->. cbn.
    apply Hdash. left. by exists n.
Qed.

Lemma ingestRecord_represents (s : Ingest) (record : DbRecord) (n m : string) :
  (∀ name, mentions record name → dashFree name) →
  (∀ k, k ∈ in_linkSet s →
        ∃ l, l ∈ in_links s ∧
             k = linkIdOf (endpointId (source l)) (endpointId (target l))) →
  (∀ l, l ∈ in_links s → dashFree (endpointId (source l))) →
  relates record n m →
  ∃ l, l ∈ in_links (ingestRecord s record) ∧ sameUnordered (linkPair l) (n, m).
Proof.
  intros Hdash Hexact Hfree ([r Hr] & Hn & Hm).
  assert (Hdn : dashFree n).
  { apply Hdash. left. destruct (rec_n record) as [d|]; [|done].
    exists d. split; [done|]. by injection Hn. }
  assert (Hdm : dashFree m).
  { apply Hdash. right. destruct (rec_m record) as [d|]; [|done].
    exists d. split; [done|]. by injection Hm. }
  unfold ingestRecord, ingestLink. cbn. rewrite Hr.
  destruct (rec_n record) as [dn|]; [|done].
  destruct (rec_m record) as [dm|]; [|done].
  cbn in Hn, Hm. injection Hn as Hn. injection Hm as Hm. rewrite Hn, Hm.
  destruct (negb (bool_decide (linkIdOf n m ∈ in_linkSet s)) &&
            negb (bool_decide (linkIdOf m n ∈ in_linkSet s))) eqn:Hguard; cbn.
  - eexists. split; [apply elem_of_app; right; left|]. by left.
  - apply andb_false_iff in Hguard as [Hg|Hg];
      apply negb_false_iff, bool_decide_eq_true in Hg;
      destruct (Hexact _ Hg) as (l & Hl & Heq);
      exists l; (split; [done|]);
      symmetry in Heq; apply linkIdOf_inj in Heq as [Hs Ht];
      try (by apply Hfree); try done.
    + left. unfold linkPair. by rewrite Hs, Ht.
    + right. unfold linkPair. by rewrite Hs, Ht.
Qed.

Lemma fold_ingestRecord_represents (results : list DbRecord) (n m : string) :
  (∀ record name, record ∈ results → mentions record name → dashFree name) →
  ∀ s,
    (∀ k, k ∈ in_linkSet s →
          ∃ l, l ∈ in_links s ∧
               k = linkIdOf (endpointId (source l)) (endpointId (target l))) →
    (∀ l, l ∈ in_links s → dashFree (endpointId (source l))) →
    ∀ record, record ∈ results → relates record n m →
    ∃ l, l ∈ in_links (fold_left ingestRecord results s) ∧
         sameUnordered (linkPair l) (n, m).
Proof.
  induction results as [|r0 results IH]; intros Hdash s Hexact Hfree record Hin Hrel.
  - by apply not_elem_of_nil in Hin.
  - cbn [fold_left].
    assert (Hd0 : ∀ name, mentions r0 name → dashFree name).
    { intros name. apply Hdash. left. }
    destruct (ingestRecord_exact s r0 Hd0 (conj Hexact Hfree)) as [Hexact' Hfree'].
    apply elem_of_cons in Hin as [->|Hin].
    + destruct (ingestRecord_represents s r0 n m Hd0 Hexact Hfree Hrel)
        as (l & Hl & Hsame).
      exists l. split; [by apply fold_ingestRecord_links_mono|done].
    + assert (Hrest : ∀ rc name, rc ∈ results → mentions rc name → dashFree name).
      { intros rc name Hrc. apply Hdash. by right. }
      exact (IH Hrest _ Hexact' Hfree' record Hin Hrel).
Qed.

(** When no name in the rows contains ["-"], no relationship is lost in
    the de-duplication: every row with a relationship between [n] and [m]
    is represented by a returned link joining [n] and [m], in one
    direction or the other. *)
Theorem getGraph_keeps_relationships
    (results : list DbRecord) (g : GraphData) (record : DbRecord) (n m : string) :
  (∀ rc name, rc ∈ results → mentions rc name → dashFree name) →
  getGraph (Resolved (Some results)) = Resolved g →
  record ∈ results →
  relates record n m →
  ∃ l, l ∈ links g ∧ sameUnordered (linkPair l) (n, m).
Proof.
  intros Hdash [= <-] Hin Hrel. cbn [links]. unfold ingestAll.
  eapply (fold_ingestRecord_represents results n m Hdash (mkIngest [] [] ∅));
    [| |exact Hin|exact Hrel].
  - intros k Hk. cbn in Hk. by apply not_elem_of_empty in Hk.
  - intros l Hl. cbn in Hl. by apply not_elem_of_nil in Hl.
Qed.

Lemma getGraph_keeps_relationships_witness :
  ∃ l, l ∈ links sampleGraph ∧ sameUnordered (linkPair l) ("Bob", "Ann").
Proof.
  assert (Hdash : ∀ rc name, rc ∈ sampleResults → mentions rc name → dashFree name).
  { intros rc name Hrc Hm. unfold sampleResults in Hrc.
    repeat (apply elem_of_cons in Hrc as [->|Hrc]);
      [..|by apply not_elem_of_nil in Hrc];
      destruct Hm as [(d & [= <-] & <-)|(d & [= <-] & <-)]; reflexivity. }
  assert (Hin : dbRow "Bob" "Ann" ∈ sampleResults) by (right; left).
  assert (Hrel : relates (dbRow "Bob" "Ann") "Bob" "Ann").
  { split; [by eexists|]. split; reflexivity. }
  exact (getGraph_keeps_relationships sampleResults sampleGraph
           (dbRow "Bob" "Ann") "Bob" "Ann" Hdash eq_refl Hin Hrel).
Defined.

(** With a ["-"] in a name the identity strings of different pairs can
    coincide, and the second relationship is dropped. *)
Example getGraph_dash_collision :
  in_links (ingestAll [dbRow "a-b" "c"; dbRow "a" "b-c"]) = [knows "a-b" "c"].
Proof. vm_compute. reflexivity. Qed.
